(** * auger [cmd/extract.go]: extraction and summarisation of etcd records

    A shallow embedding of the [extract] command of auger: the walk over the
    [key] bucket of a bolt file, the version resolver, the per-key aggregator
    and the printing layer, followed by the properties checked against them.

    Conventions of the embedding.
    - Go [string] and [[]byte] are both byte sequences and are both modelled
      by [string]; the conversions [string(b)] and [[]byte(s)] are the
      identity.
    - [int64] is [Z]; versions are only compared, never computed with.
      [int] is [Z] with the 64-bit wrap-around written out ([wrap_int]).
    - A library function returning [(T, error)] returns a [result T].  A
      function of this file ends with an [outcome]: a value, an error, or
      the run-time panic of the nil bucket dereferenced in [walk].
    - Effects on the outside world (opening a bolt file, reading the input,
      writing to [os.Stdout]) are recorded as a trace of [Event]s, in the
      order in which the code performs them.
    - Code outside [cmd/extract.go] (bolt, the protobuf decoder of
      [mvccpb.KeyValue], [pkg/encoding], [encoding/json], [strconv],
      [text/template], [readInput]) is a field of [Env]. *)

From Stdlib Require Import ZArith Lia Ascii.
From stdpp Require Import base option list strings gmap fin_maps sorting pretty.

#[local] Set Warnings "-clear-no-such-hyp".

Local Open Scope Z_scope.

(** ** Errors, results and effects *)

Inductive error : Type :=
| Errorf (msg : string)            (* built by fmt.Errorf in this file *)
| LibError (pkg msg : string).     (* returned by code outside this file *)

Definition Error (e : error) : string :=
  match e with
  | Errorf msg => msg
  | LibError _ msg => msg
  end.

#[global] Instance error_eq_dec : EqDecision error.
Proof. solve_decision. Defined.

Inductive result (A : Type) : Type :=
| Ok (a : A)
| Err (e : error).
Arguments Ok {A} a.
Arguments Err {A} e.

Inductive Event : Type :=
| OpenFile (filename : string)     (* bolt.Open *)
| CloseFile (filename : string)    (* the deferred db.Close *)
| ReadInput (filename : string)    (* readInput *)
| WriteOut (data : string).        (* bytes written to os.Stdout *)

#[global] Instance Event_eq_dec : EqDecision Event.
Proof. solve_decision. Defined.

(** How a call of a function of this file ends: it returns a value with a
    nil error, it returns a non-nil error, or it panics. *)
Inductive outcome (A : Type) : Type :=
| Done (a : A)
| Failed (e : error)
| Panicked.
Arguments Done {A} a.
Arguments Failed {A} e.
Arguments Panicked {A}.

Definition outcome_map {A B} (f : A → B) (r : outcome A) : outcome B :=
  match r with
  | Done a => Done (f a)
  | Failed e => Failed e
  | Panicked => Panicked
  end.

(** A computation: the events it performed, in order, and how it ended. *)
Definition M (A : Type) : Type := (list Event * outcome A)%type.

Definition ret {A} (a : A) : M A := ([], Done a).
Definition fail {A} (e : error) : M A := ([], Failed e).
Definition bind {A B} (m : M A) (k : A → M B) : M B :=
  match m with
  | (t, Done a) => let '(t', r) := k a in (t ++ t', r)
  | (t, Failed e) => (t, Failed e)
  | (t, Panicked) => (t, Panicked)
  end.
Definition Fprintf (data : string) : M unit := ([WriteOut data], Done tt).

(** [m >>! k]: run [m], and go on with [k] when it returned without error;
    this is Go's [if err != nil { return err }]. *)
Infix ">>!" := bind (at level 61, left associativity).

(** The bytes that reached os.Stdout, in order. *)
Fixpoint output (t : list Event) : string :=
  match t with
  | [] => ""
  | WriteOut data :: t' => data +:+ output t'
  | _ :: t' => output t'
  end.

(** The events that touch a file: everything but the writes. *)
Fixpoint file_io (t : list Event) : list Event :=
  match t with
  | [] => []
  | WriteOut _ :: t' => file_io t'
  | ev :: t' => ev :: file_io t'
  end.

(** ** Data *)

Definition len (s : string) : Z := Z.of_nat (String.length s).
Definition wrap_int (z : Z) : Z := (z + 2 ^ 63) mod 2 ^ 64 - 2 ^ 63.

Module mvccpb.
Record KeyValue : Type := {
  Key : string;
  CreateRevision : Z;
  ModRevision : Z;
  Version : Z;
  Value : string;
  Lease : Z
}.
End mvccpb.

Module runtime.
Record TypeMeta : Type := { Kind : string; APIVersion : string }.
End runtime.

(** What [json.Unmarshal] builds behind an [interface{}]. *)
#[warnings="-register-all"]
Inductive json : Type :=
| JNull
| JBool (b : bool)
| JNumber (n : string)
| JString (s : string)
| JArray (l : list json)
| JObject (fields : list (string * json)).

(** A [map[string]interface{}]; [None] is the nil map. *)
Definition json_map : Type := option (list (string * json)).

Module KeySummaryStats.
Record t : Type := {
  VersionCount : Z;
  KeySize : Z;
  ValueSize : Z;
  AllVersionsKeySize : Z;
  AllVersionsValueSize : Z
}.
End KeySummaryStats.

Module KeySummary.
Record t : Type := {
  Key : string;
  Version : Z;
  Value : json_map;
  TypeMeta : option runtime.TypeMeta;
  Stats : KeySummaryStats.t
}.
End KeySummary.

Record extractOptions : Type := {
  out : string;
  filename : string;
  key : string;
  version : string;
  keyPrefix : string;
  listVersions_ : bool;
  leafItem : bool;
  printKey : bool;
  metaSummary : bool;
  raw : bool;
  fields : string;
  template : string
}.

Definition Key : string := "key".
Definition ValueSize : string := "value-size".
Definition AllVersionsValueSize : string := "all-versions-value-size".
Definition VersionCount : string := "version-count".
Definition Value : string := "value".

Definition SummaryFields : list string :=
  [Key; ValueSize; AllVersionsValueSize; VersionCount; Value].

(** The flag defaults registered in [init]. *)
Definition defaultOptions : extractOptions :=
  {| out := "yaml"; filename := ""; key := ""; version := ""; keyPrefix := "";
     listVersions_ := false; leafItem := false; printKey := false;
     metaSummary := false; raw := false; fields := Key; template := "" |}.

(** See etcd/mvcc/kvstore.go:keyBucketName *)
Definition keyBucket : string := "key".

(** ** The environment: bolt files and library code *)

Module bolt.
(** An opened bolt file: its buckets, each with its items in cursor order. *)
Record DB : Type := { Bucket : string → option (list (string * string)) }.
End bolt.

Record Env : Type := {
  bolt_Open : string → result bolt.DB;
  readInput : string → result string;
  Unmarshal : string → result mvccpb.KeyValue;
  encoding_ToMediaType : string → result string;
  encoding_JsonMediaType : string;
  encoding_DetectAndExtract : string → result (string * string);
  (* inMediaType, outMediaType, in: the bytes written to the writer and the
     returned pair; the TypeMeta returned along with an error is nil *)
  encoding_Convert : string → string → string → string * result (option runtime.TypeMeta);
  json_Unmarshal : string → result json_map;
  json_Marshal : json_map → result string;
  strconv_ParseInt : string → result Z;
  strings_TrimSpace : string → string;
  template_Parse : string → result unit;
  (* template text, datum: the bytes written and the returned error *)
  template_Execute : string → KeySummary.t → string * result unit
}.

(** ** Library functions with a fixed meaning *)

(** [strings.Split(s, sep)] for a one-byte separator. *)
Fixpoint strings_Split (s : string) (sep : Ascii.ascii) : list string :=
  match s with
  | EmptyString => [EmptyString]
  | String c s' =>
      if decide (c = sep) then EmptyString :: strings_Split s' sep
      else match strings_Split s' sep with
           | [] => [String c EmptyString]
           | w :: ws => String c w :: ws
           end
  end.

Definition strings_Join (elems : list string) (sep : string) : string :=
  String.concat sep elems.

(** [strings.Compare]: byte-wise, -1, 0 or +1. *)
Definition strings_Compare (a b : string) : Z :=
  match String.compare a b with
  | Lt => -1
  | Eq => 0
  | Gt => 1
  end.

Definition bytes_HasPrefix (s prefix : string) : bool := String.prefix prefix s.

(** [sort.Slice] as the insertion sort it runs on short slices: each element
    in turn moves towards the front while [less] holds against the element
    before it.  [sort_insert] works on the reversed sorted prefix. *)
Fixpoint sort_insert {A} (less : A → A → bool) (x : A) (rev_sorted : list A) : list A :=
  match rev_sorted with
  | [] => [x]
  | y :: rest => if less x y then y :: sort_insert less x rest else x :: y :: rest
  end.

Definition sort_Slice {A} (less : A → A → bool) (data : list A) : list A :=
  reverse (fold_left (λ acc x, sort_insert less x acc) data []).

(** ** The program *)

Section Extract.
Variable E : Env.

(** The visitor handed to [walk]: a closure over variables of type [S],
    which it may update, returning [(done, err)]. *)
Definition visitor (S : Type) : Type := S → mvccpb.KeyValue → S * result bool.

(** The cursor loop of [walk]: [for k, v := c.First(); k != nil; k, v = c.Next()]. *)
Fixpoint walk_items {S} (f : visitor S) (items : list (string * string)) (s : S)
  : S * outcome unit :=
  match items with
  | [] => (s, Done tt)
  | (_, v) :: rest =>
      match Unmarshal E v with
      | Err err => (s, Failed err)
      | Ok kv =>
          match f s kv with
          | (s', Err _) =>
              (s', Failed (Errorf ("Error handling key " +:+ mvccpb.Key kv)))
          | (s', Ok true) => (s', Done tt)
          | (s', Ok false) => walk_items f rest s'
          end
      end
  end.

Definition walk {S} (filename : string) (f : visitor S) (s : S)
  : list Event * (S * outcome unit) :=
  match bolt_Open E filename with
  | Err err => ([OpenFile filename], (s, Failed err))
  | Ok db =>
      ([OpenFile filename; CloseFile filename],
       match bolt.Bucket db keyBucket with
       | None => (s, Panicked)
       | Some items => walk_items f items s
       end)
  end.

Definition extractKvFromLeafItem (raw : string) : result mvccpb.KeyValue :=
  match Unmarshal E raw with
  | Err err => Err err
  | Ok kv => Ok kv
  end.

Definition maxInSlice (s : list Z) : Z :=
  fold_left (λ r e, if e >? r then e else r) s 0.

Definition rawJsonMarshal (data : json_map) : string :=
  match json_Marshal E data with
  | Err _ => ""
  | Ok b => b
  end.

Definition rawJsonUnmarshal (valJson : string) : json_map :=
  match json_Unmarshal E valJson with
  | Err _ => None
  | Ok val => val
  end.

(** [convert]: the bytes written to [out], and the returned pair. *)
Definition convert (outMediaType : string) (in_ : string)
  : string * result (option runtime.TypeMeta) :=
  match encoding_DetectAndExtract E in_ with
  | Err err => ("", Err err)
  | Ok (inMediaType, in') => encoding_Convert E inMediaType outMediaType in'
  end.

Definition listVersions_visit (key : string) : visitor (list Z) :=
  λ result kv,
    if decide (mvccpb.Key kv = key)
    then (result ++ [mvccpb.Version kv], Ok false)
    else (result, Ok false).

Definition listVersions (filename key : string) : M (list Z) :=
  match walk filename (listVersions_visit key) [] with
  | (t, (_, Failed err)) => (t, Failed err)
  | (t, (_, Panicked)) => (t, Panicked)
  | (t, (result, Done _)) => (t, Done result)
  end.

(** The closure of [getValue] over [result] and [found]. *)
Definition getValue_visit (key : string) (version : Z) : visitor (string * bool) :=
  λ s kv,
    if decide (mvccpb.Key kv = key ∧ mvccpb.Version kv = version)
    then ((mvccpb.Value kv, true), Ok true)
    else (s, Ok false).

Definition getValue (filename key : string) (version : Z) : M string :=
  match walk filename (getValue_visit key version) ("", false) with
  | (t, (_, Failed err)) => (t, Failed err)
  | (t, (_, Panicked)) => (t, Panicked)
  | (t, ((result, found), Done _)) =>
      if negb found then (t, Failed (Errorf ("key not found: " +:+ key)))
      else (t, Done result)
  end.

(** The summary built at the first sighting of a key ([!ok] branch). *)
Definition newKeySummary (kv : mvccpb.KeyValue) : KeySummary.t :=
  let '(buf, r) := convert (encoding_JsonMediaType E) (mvccpb.Value kv) in
  let '(valJson, typeMeta) :=
    match r with
    | Ok typeMeta => (strings_TrimSpace E buf, typeMeta)
    | Err _ => ("", None)
    end in
  {| KeySummary.Key := mvccpb.Key kv;
     KeySummary.Version := mvccpb.Version kv;
     KeySummary.Stats :=
       {| KeySummaryStats.KeySize := len (mvccpb.Key kv);
          KeySummaryStats.ValueSize := len (mvccpb.Value kv);
          KeySummaryStats.AllVersionsKeySize := len (mvccpb.Key kv);
          KeySummaryStats.AllVersionsValueSize := len (mvccpb.Value kv);
          KeySummaryStats.VersionCount := 1 |};
     KeySummary.Value := rawJsonUnmarshal valJson;
     KeySummary.TypeMeta := typeMeta |}.

(** The update at a later sighting ([else] branch): [ks] is the summary the
    map holds for the key, the result is what it holds afterwards. *)
Definition updateKeySummary (ks : KeySummary.t) (kv : mvccpb.KeyValue) : KeySummary.t :=
  let newer := mvccpb.Version kv >? KeySummary.Version ks in
  let st := KeySummary.Stats ks in
  {| KeySummary.Key := KeySummary.Key ks;
     KeySummary.Version :=
       if newer then mvccpb.Version kv else KeySummary.Version ks;
     KeySummary.Stats :=
       {| KeySummaryStats.KeySize := KeySummaryStats.KeySize st;
          KeySummaryStats.ValueSize :=
            if newer then len (mvccpb.Value kv) else KeySummaryStats.ValueSize st;
          KeySummaryStats.AllVersionsKeySize :=
            wrap_int (KeySummaryStats.AllVersionsKeySize st + len (mvccpb.Key kv));
          KeySummaryStats.AllVersionsValueSize :=
            wrap_int (KeySummaryStats.AllVersionsValueSize st + len (mvccpb.Value kv));
          KeySummaryStats.VersionCount :=
            wrap_int (KeySummaryStats.VersionCount st + 1) |};
     KeySummary.Value := KeySummary.Value ks;
     KeySummary.TypeMeta := KeySummary.TypeMeta ks |}.

(** The closure of [listKeySummaries] over the map [m]. *)
Definition listKeySummaries_visit (prefix : string) : visitor (gmap string KeySummary.t) :=
  λ m kv,
    if bytes_HasPrefix (mvccpb.Key kv) prefix then
      match m !! mvccpb.Key kv with
      | None => (<[mvccpb.Key kv := newKeySummary kv]> m, Ok false)
      | Some ks => (<[mvccpb.Key kv := updateKeySummary ks kv]> m, Ok false)
      end
    else (m, Ok false).

Definition keyLess (a b : KeySummary.t) : bool :=
  strings_Compare (KeySummary.Key a) (KeySummary.Key b) <=? 0.

(** [for _, v := range m] visits the map in an unspecified order; [order]
    is the order of one run. *)
Definition getSortedKeySummaries_from (order : list KeySummary.t) : list KeySummary.t :=
  sort_Slice keyLess order.

Definition getSortedKeySummaries (m : gmap string KeySummary.t) : list KeySummary.t :=
  getSortedKeySummaries_from (map_to_list m).*2.

Definition listKeySummaries (filename prefix : string) : M (list KeySummary.t) :=
  match walk filename (listKeySummaries_visit prefix) ∅ with
  | (t, (_, Failed err)) => (t, Failed err)
  | (t, (_, Panicked)) => (t, Panicked)
  | (t, (m, Done _)) => (t, Done (getSortedKeySummaries m))
  end.

Definition nl : string := String "010"%char EmptyString.

(** One iteration of the loop of [summarize]. *)
Definition summarize_field (s : KeySummary.t) (field : string) : result string :=
  if decide (field = Key) then Ok (KeySummary.Key s)
  else if decide (field = ValueSize)
    then Ok (pretty (KeySummaryStats.ValueSize (KeySummary.Stats s)))
  else if decide (field = AllVersionsValueSize)
    then Ok (pretty (KeySummaryStats.AllVersionsValueSize (KeySummary.Stats s)))
  else if decide (field = VersionCount)
    then Ok (pretty (KeySummaryStats.VersionCount (KeySummary.Stats s)))
  else if decide (field = Value) then Ok (rawJsonMarshal (KeySummary.Value s))
  else Err (Errorf ("unrecognized field: " +:+ field)).

Fixpoint summarize_values (s : KeySummary.t) (fields : list string) : result (list string) :=
  match fields with
  | [] => Ok []
  | field :: rest =>
      match summarize_field s field with
      | Err err => Err err
      | Ok v =>
          match summarize_values s rest with
          | Err err => Err err
          | Ok vs => Ok (v :: vs)
          end
      end
  end.

Definition summarize (s : KeySummary.t) (fields : list string) : result string :=
  match summarize_values s fields with
  | Err err => Err err
  | Ok values => Ok (strings_Join values " ")
  end.

(** printVersions writes all versions of the given key. *)
Fixpoint printVersions_loop (versions : list Z) : M unit :=
  match versions with
  | [] => ret tt
  | v :: rest => Fprintf (pretty v +:+ nl) >>! λ _, printVersions_loop rest
  end.

Definition printVersions (filename key : string) : M unit :=
  listVersions filename key >>! λ versions, printVersions_loop versions.

(** printValue writes the value, in the desired media type, of the given
    key version. *)
Definition printValue (filename key version : string) (raw : bool) (outMediaType : string)
  : M unit :=
  (if decide (version = "") then
     listVersions filename key >>! λ versions,
       if decide (length versions = 0%nat)
       then fail (Errorf ("No versions found for key: " +:+ key))
       else ret (maxInSlice versions)
   else
     match strconv_ParseInt E version with
     | Err err =>
         fail (Errorf ("version must be an int64, but got " +:+ version +:+ ": " +:+ Error err))
     | Ok v => ret v
     end) >>! λ v,
  getValue filename key v >>! λ in_,
  if decide (len in_ = 0) then fail (Errorf "0 byte value")
  else if raw then Fprintf (in_ +:+ nl)
  else
    match convert outMediaType in_ with
    | (w, Err err) => ([WriteOut w], Failed err)
    | (w, Ok _) => ([WriteOut w], Done tt)
    end.

(** printLeafItemKey prints an etcd key for a given boltdb leaf item. *)
Definition printLeafItemKey (kv : mvccpb.KeyValue) : M unit :=
  Fprintf (mvccpb.Key kv +:+ nl).

(** printLeafItemSummary prints etcd metadata summary *)
Definition printLeafItemSummary (kv : mvccpb.KeyValue) : M unit :=
  Fprintf ("Key: " +:+ mvccpb.Key kv +:+ nl) >>! λ _,
  Fprintf ("Version: " +:+ pretty (mvccpb.Version kv) +:+ nl) >>! λ _,
  Fprintf ("CreateRevision: " +:+ pretty (mvccpb.CreateRevision kv) +:+ nl) >>! λ _,
  Fprintf ("ModRevision: " +:+ pretty (mvccpb.ModRevision kv) +:+ nl) >>! λ _,
  Fprintf ("Lease: " +:+ pretty (mvccpb.Lease kv) +:+ nl).

(** printLeafItemValue prints an etcd value for a given boltdb leaf item. *)
Definition printLeafItemValue (kv : mvccpb.KeyValue) (outMediaType : string) : M unit :=
  match convert outMediaType (mvccpb.Value kv) with
  | (w, Err err) => ([WriteOut w], Failed err)
  | (w, Ok _) => ([WriteOut w], Done tt)
  end.

(** printKeySummaries prints all keys in the db file with the given key
    prefix. *)
Fixpoint printKeySummaries_loop (fields : list string) (summaries : list KeySummary.t)
  : M unit :=
  match summaries with
  | [] => ret tt
  | s :: rest =>
      match summarize s fields with
      | Err err => fail err
      | Ok summary =>
          Fprintf (summary +:+ nl) >>! λ _, printKeySummaries_loop fields rest
      end
  end.

Definition printKeySummaries (filename keyPrefix : string) (fields : list string) : M unit :=
  if decide (length fields = 0%nat)
  then fail (Errorf "no fields provided, nothing to output.")
  else listKeySummaries filename keyPrefix >>! λ summaries,
       printKeySummaries_loop fields summaries.

(** templateSummaries prints out each KeySummary according to the given
    golang template. *)
Fixpoint templateSummaries_loop (templatestr : string) (summaries : list KeySummary.t)
  : M unit :=
  match summaries with
  | [] => ret tt
  | s :: rest =>
      match template_Execute E templatestr s with
      | (w, Err err) => ([WriteOut w], Failed err)
      | (w, Ok _) =>
          ([WriteOut w], Done tt) >>! λ _,
          Fprintf nl >>! λ _, templateSummaries_loop templatestr rest
      end
  end.

Definition templateSummaries (filename keyPrefix templatestr : string) : M unit :=
  match template_Parse E templatestr with
  | Err err => fail err
  | Ok _ =>
      if decide (len templatestr = 0)
      then fail (Errorf "no template provided, nothing to output.")
      else listKeySummaries filename keyPrefix >>! λ summaries,
           templateSummaries_loop templatestr summaries
  end.

Definition extractValidateAndRun (opts : extractOptions) : M unit :=
  match encoding_ToMediaType E (out opts) with
  | Err err => fail (Errorf ("invalid --output " +:+ out opts +:+ ": " +:+ Error err))
  | Ok outMediaType =>
      let hasKey := negb (bool_decide (key opts = "")) in
      let hasVersion := negb (bool_decide (version opts = "")) in
      let hasKeyPrefix := negb (bool_decide (keyPrefix opts = "")) in
      let hasFields := negb (bool_decide (fields opts = Key)) in
      let hasTemplate := negb (bool_decide (template opts = "")) in
      if leafItem opts then
        match readInput E (filename opts) with
        | Err err =>
            ([ReadInput (filename opts)],
             Failed (Errorf ("unable to read input: " +:+ Error err)))
        | Ok raw =>
            ([ReadInput (filename opts)], Done tt) >>! λ _,
            match extractKvFromLeafItem raw with
            | Err err =>
                fail (Errorf ("failed to extract etcd key-value record from boltdb leaf item: "
                              +:+ Error err))
            | Ok kv =>
                if metaSummary opts then printLeafItemSummary kv
                else if printKey opts then printLeafItemKey kv
                else printLeafItemValue kv outMediaType
            end
        end
      else if hasKey && hasKeyPrefix then
        fail (Errorf "--keys-by-prefix and --key may not be used together")
      else if hasKey && listVersions_ opts then
        printVersions (filename opts) (key opts)
      else if hasKey then
        printValue (filename opts) (key opts) (version opts) (raw opts) outMediaType
      else if negb hasKey && listVersions_ opts then
        fail (Errorf "--list-versions may only be used with --key")
      else if negb hasKey && hasVersion then
        fail (Errorf "--version may only be used with --key")
      else if hasTemplate && hasFields then
        fail (Errorf "--template and --fields may not be used together")
      else if hasTemplate then
        templateSummaries (filename opts) (keyPrefix opts) (template opts)
      else
        let fields := strings_Split (fields opts) ","%char in
        printKeySummaries (filename opts) (keyPrefix opts) fields
  end.
End Extract.

(** ** A small environment to run the program on

    The items of the [key] bucket are given by the caller; the decoder knows
    a handful of encoded records and rejects every other byte string. *)

Module Sample.
Definition kv (k : string) (ver : Z) (v : string) : mvccpb.KeyValue :=
  {| mvccpb.Key := k; mvccpb.CreateRevision := 0; mvccpb.ModRevision := 0;
     mvccpb.Version := ver; mvccpb.Value := v; mvccpb.Lease := 0 |}.

(** The double quote, and a name or string value between double quotes. *)
Definition dq : string := String "034"%char EmptyString.
Definition quoted (s : string) : string := dq +:+ s +:+ dq.

(** The JSON text of a ConfigMap whose data has the one entry k, with value
    [v], and the object [json.Unmarshal] makes of that text. *)
Definition configMap (v : string) : string :=
  "{" +:+ quoted "kind" +:+ ":" +:+ quoted "ConfigMap" +:+ ","
      +:+ quoted "apiVersion" +:+ ":" +:+ quoted "v1" +:+ ","
      +:+ quoted "data" +:+ ":{" +:+ quoted "k" +:+ ":" +:+ quoted v +:+ "}}".

Definition configMapObject (v : string) : list (string * json) :=
  [("kind", JString "ConfigMap"); ("apiVersion", JString "v1");
   ("data", JObject [("k", JString v)])].

Definition configMapMeta : runtime.TypeMeta :=
  {| runtime.Kind := "ConfigMap"; runtime.APIVersion := "v1" |}.

(** The texts that decode; every other byte string, such as the short
    values x, xy and xyz below, is not an encoded object. *)
Definition documents : list (string * list (string * json)) :=
  [ (configMap "1", configMapObject "1"); (configMap "22", configMapObject "22") ].

Definition document (text : string) : option (list (string * json)) :=
  match list_find (λ d, d.1 = text) documents with
  | Some (_, (_, obj)) => Some obj
  | None => None
  end.

(** [strings.TrimSpace] on ASCII white space. *)
Fixpoint trimLeft (s : string) : string :=
  match s with
  | EmptyString => EmptyString
  | String c s' => if Ascii.is_space c then trimLeft s' else s
  end.
Definition trimSpace (s : string) : string :=
  String.rev (trimLeft (String.rev (trimLeft s))).

Definition records : list (string * mvccpb.KeyValue) :=
  [ ("a1", kv "/a" 1 "x"); ("a2", kv "/a" 2 "xy"); ("a3", kv "/a" 3 "xyz");
    ("b1", kv "/b" 1 "q"); ("c7", kv "/a/c" 7 "");
    ("n1", kv "/n" (-1) "u"); ("n2", kv "/n" (-2) "v"); ("n3", kv "/n" (-3) "w");
    ("t0", kv "/a" 0 ""); ("e1", kv "/a" 1 "");
    ("m1", kv "/registry/configmaps/default/a" 1 (configMap "1"));
    ("m2", kv "/registry/configmaps/default/a" 2 (configMap "22")) ].

Definition decode (raw : string) : result mvccpb.KeyValue :=
  match list_find (λ r, r.1 = raw) records with
  | Some (_, (_, r)) => Ok r
  | None => Err (LibError "proto" "unexpected EOF")
  end.

Definition db (items : list (string * string)) : bolt.DB :=
  {| bolt.Bucket := λ name, if decide (name = keyBucket) then Some items else None |}.

Definition parseInt (s : string) : result Z :=
  match list_find (λ r, r.1 = s) [("1", 1); ("2", 2); ("3", 3); ("7", 7)] with
  | Some (_, (_, z)) => Ok z
  | None => Err (LibError "strconv" "invalid syntax")
  end.

(** The file "db" holds [items]; every other file is refused by [bolt.Open]
    as not being a database.  Only the [documents] are encoded objects: they
    convert to themselves with a final newline and decode to their object;
    no other value is detected as JSON or binary, and no other text
    unmarshals. *)
Definition env (items : list (string * string)) : Env :=
  {| bolt_Open := λ f,
       if decide (f = "db") then Ok (db items)
       else Err (LibError "bolt" "invalid database");
     readInput := λ f, Err (LibError "os" "no such file or directory");
     Unmarshal := decode;
     encoding_ToMediaType := λ o,
       if decide (o = "json") then Ok "application/json"
       else if decide (o = "yaml") then Ok "application/yaml"
       else Err (LibError "encoding" "unrecognized encoding");
     encoding_JsonMediaType := "application/json";
     encoding_DetectAndExtract := λ i,
       match document i with
       | Some _ => Ok ("application/json", i)
       | None =>
           Err (LibError "encoding"
                  "error reading input, does not appear to contain valid JSON or binary data")
       end;
     encoding_Convert := λ _ _ i,
       match document i with
       | Some _ => (i +:+ nl, Ok (Some configMapMeta))
       | None => ("", Err (LibError "encoding" "unable to decode"))
       end;
     json_Unmarshal := λ s,
       match document s with
       | Some obj => Ok (Some obj)
       | None => Err (LibError "json" "unexpected end of JSON input")
       end;
     json_Marshal := λ m,
       match m with
       | Some [_; _; (_, JObject [(_, JString v)])] => Ok (configMap v)
       | Some _ => Ok "{}"
       | None => Ok "null"
       end;
     strconv_ParseInt := parseInt;
     strings_TrimSpace := trimSpace;
     template_Parse := λ _, Ok tt;
     template_Execute := λ _ s, (KeySummary.Key s, Ok tt) |}.

(** A visitor that counts the records it saw and fails at the key [bad]. *)
Definition failing_visit (bad : string) : visitor Z :=
  λ n kv,
    if decide (mvccpb.Key kv = bad) then (n, Err (LibError "visit" "boom"))
    else (n + 1, Ok false).

(** --key=/a --list-versions --version=3 *)
Definition optsKeyListVersionsVersion : extractOptions :=
  {| out := "json"; filename := "db"; key := "/a"; version := "3"; keyPrefix := "";
     listVersions_ := true; leafItem := false; printKey := false;
     metaSummary := false; raw := false; fields := Key; template := "" |}.

(** --list-versions --version=3 *)
Definition optsListVersionsVersion : extractOptions :=
  {| out := "json"; filename := "db"; key := ""; version := "3"; keyPrefix := "";
     listVersions_ := true; leafItem := false; printKey := false;
     metaSummary := false; raw := false; fields := Key; template := "" |}.

(** --template={{.Key}} --fields=key *)
Definition optsTemplateFieldsKey : extractOptions :=
  {| out := "json"; filename := "db"; key := ""; version := ""; keyPrefix := "";
     listVersions_ := false; leafItem := false; printKey := false;
     metaSummary := false; raw := false; fields := "key"; template := "{{.Key}}" |}.

(** --template={{.Key}} --fields=key,value-size *)
Definition optsTemplateFields : extractOptions :=
  {| out := "json"; filename := "db"; key := ""; version := ""; keyPrefix := "";
     listVersions_ := false; leafItem := false; printKey := false;
     metaSummary := false; raw := false; fields := "key,value-size"; template := "{{.Key}}" |}.
End Sample.

(** ** Decoded views of a bucket *)

Section Walk.
Variable E : Env.

(** All of [items] decode, first failure otherwise. *)
Fixpoint decode_items (items : list (string * string)) : result (list mvccpb.KeyValue) :=
  match items with
  | [] => Ok []
  | (_, v) :: rest =>
      match Unmarshal E v with
      | Err err => Err err
      | Ok kv =>
          match decode_items rest with
          | Err err => Err err
          | Ok kvs => Ok (kv :: kvs)
          end
      end
  end.

(** The visitor is called on each record of [kvs] in turn and asks for the
    next one each time: the state it leaves, if so. *)
Fixpoint visit_all {S} (f : visitor S) (kvs : list mvccpb.KeyValue) (s : S) : option S :=
  match kvs with
  | [] => Some s
  | kv :: rest =>
      match f s kv with
      | (s', Ok false) => visit_all f rest s'
      | _ => None
      end
  end.

End Walk.

(** ** Usage errors

    The errors [extractValidateAndRun] builds when it rejects the options. *)

Definition usageMessages : list string :=
  [ "--keys-by-prefix and --key may not be used together";
    "--list-versions may only be used with --key";
    "--version may only be used with --key";
    "--template and --fields may not be used together" ].

Definition UsageError (e : error) : bool :=
  match e with
  | Errorf msg => bool_decide (msg ∈ usageMessages) || String.prefix "invalid --output " msg
  | LibError _ _ => false
  end.

(** ** The aggregation, record by record

    What the closure of [listKeySummaries] does to its map over the decoded
    records, and what it does to the summary of one key. *)

Definition aggregate_step (E : Env) (prefix : string)
    (m : gmap string KeySummary.t) (kv : mvccpb.KeyValue) : gmap string KeySummary.t :=
  (listKeySummaries_visit E prefix m kv).1.

Definition aggregate (E : Env) (prefix : string) (kvs : list mvccpb.KeyValue)
  : gmap string KeySummary.t :=
  fold_left (aggregate_step E prefix) kvs ∅.

(** The summary of a key after one more of its records. *)
Definition sighting (E : Env) (o : option KeySummary.t) (kv : mvccpb.KeyValue)
  : option KeySummary.t :=
  match o with
  | None => Some (newKeySummary E kv)
  | Some ks => Some (updateKeySummary ks kv)
  end.

(** The records of the key [k], in the order of the walk. *)
Definition records_of (k : string) (kvs : list mvccpb.KeyValue) : list mvccpb.KeyValue :=
  filter (λ kv, mvccpb.Key kv = k) kvs.

(** Byte-wise lexicographic order on the keys of two summaries. *)
Definition key_lt (a b : KeySummary.t) : Prop :=
  String.compare (KeySummary.Key a) (KeySummary.Key b) = Lt.

Definition key_le (a b : KeySummary.t) : Prop :=
  String.le (KeySummary.Key a) (KeySummary.Key b).

Definition has_prefix (prefix : string) (ks : KeySummary.t) : Prop :=
  bytes_HasPrefix (KeySummary.Key ks) prefix = true.

#[global] Instance has_prefix_dec prefix ks : Decision (has_prefix prefix ks).
Proof. unfold has_prefix. apply _. Defined.

(** The values a map holds, in the order [map_to_list] gives them. *)
Definition values (m : gmap string KeySummary.t) : list KeySummary.t :=
  (map_to_list m).*2.

(** Each summary sits in the map under its own key. *)
Definition keyed (m : gmap string KeySummary.t) : Prop :=
  ∀ k ks, m !! k = Some ks → KeySummary.Key ks = k.

(** The program ended, without any event, on one of the fixed usage errors. *)
Ltac usage_error := eexists; split; [|reflexivity]; reflexivity.

(** ** Further cases to run the program on *)

Module Cases.
(** As [Sample.env], with the leaf item "a2" readable from the file "item". *)
Definition leaf_env : Env :=
  {| bolt_Open := bolt_Open (Sample.env []);
     readInput := λ f,
       if decide (f = "item") then Ok "a2"
       else if decide (f = "torn") then Ok "garbage"
       else Err (LibError "os" "no such file or directory");
     Unmarshal := Sample.decode;
     encoding_ToMediaType := encoding_ToMediaType (Sample.env []);
     encoding_JsonMediaType := "application/json";
     encoding_DetectAndExtract := encoding_DetectAndExtract (Sample.env []);
     encoding_Convert := encoding_Convert (Sample.env []);
     json_Unmarshal := json_Unmarshal (Sample.env []);
     json_Marshal := json_Marshal (Sample.env []);
     strconv_ParseInt := Sample.parseInt;
     strings_TrimSpace := λ s, s;
     template_Parse := λ _, Ok tt;
     template_Execute := template_Execute (Sample.env []) |}.

(** As [Sample.env], with a template engine that rejects the text "{{" and
    whose rendering breaks off at the key /b after writing "par". *)
Definition template_env (items : list (string * string)) : Env :=
  {| bolt_Open := bolt_Open (Sample.env items);
     readInput := readInput (Sample.env items);
     Unmarshal := Sample.decode;
     encoding_ToMediaType := encoding_ToMediaType (Sample.env items);
     encoding_JsonMediaType := "application/json";
     encoding_DetectAndExtract := encoding_DetectAndExtract (Sample.env items);
     encoding_Convert := encoding_Convert (Sample.env items);
     json_Unmarshal := json_Unmarshal (Sample.env items);
     json_Marshal := json_Marshal (Sample.env items);
     strconv_ParseInt := Sample.parseInt;
     strings_TrimSpace := λ s, s;
     template_Parse := λ t,
       if decide (t = "{{") then Err (LibError "template" "unclosed action") else Ok tt;
     template_Execute := λ _ s,
       if decide (KeySummary.Key s = "/b")
       then ("par", Err (LibError "template" "nil pointer evaluating"))
       else (KeySummary.Key s, Ok tt) |}.

(** --file=db --keys-by-prefix=/a, everything else at its default *)
Definition optsPrefix : extractOptions :=
  {| out := "yaml"; filename := "db"; key := ""; version := ""; keyPrefix := "/a";
     listVersions_ := false; leafItem := false; printKey := false;
     metaSummary := false; raw := false; fields := Key; template := "" |}.

(** --file=notes.txt --key=/a --raw *)
Definition optsNotADatabase : extractOptions :=
  {| out := "yaml"; filename := "notes.txt"; key := "/a"; version := ""; keyPrefix := "";
     listVersions_ := false; leafItem := false; printKey := false;
     metaSummary := false; raw := true; fields := Key; template := "" |}.

(** --key=/a --keys-by-prefix=/a *)
Definition optsKeyAndPrefix : extractOptions :=
  {| out := "yaml"; filename := "db"; key := "/a"; version := ""; keyPrefix := "/a";
     listVersions_ := false; leafItem := false; printKey := false;
     metaSummary := false; raw := false; fields := Key; template := "" |}.

(** --version=2, no --key *)
Definition optsVersionOnly : extractOptions :=
  {| out := "yaml"; filename := "db"; key := ""; version := "2"; keyPrefix := "";
     listVersions_ := false; leafItem := false; printKey := false;
     metaSummary := false; raw := false; fields := Key; template := "" |}.

(** --leaf-item with the given input file and the two print switches; the
    key options are set too, to show that they play no part. *)
Definition optsLeaf (input : string) (meta printkey : bool) : extractOptions :=
  {| out := "json"; filename := input; key := "/a"; version := "1"; keyPrefix := "/a";
     listVersions_ := true; leafItem := true; printKey := printkey;
     metaSummary := meta; raw := false; fields := "bogus"; template := "{{.Key}}" |}.
End Cases.

(** ** Notions used to state what is written *)

(** The two events of a walk over a file that opens. *)
Definition walked (filename : string) : list Event :=
  [OpenFile filename; CloseFile filename].

(** The sum of the lengths of one field over some records. *)
Definition total_len (f : mvccpb.KeyValue → string) (l : list mvccpb.KeyValue) : Z :=
  foldr (λ r acc, len (f r) + acc) 0 l.

(** The line [summarize] makes of a summary, empty when it fails. *)
Definition summary_line (E : Env) (fields : list string) (s : KeySummary.t) : string :=
  match summarize E s fields with
  | Ok line => line
  | Err _ => ""
  end.

(** One write per element of a list. *)
Definition writes {A} (f : A → string) (l : list A) : list Event :=
  (λ x, WriteOut (f x)) <$> l.

(** What a template that renders without error writes for each summary: its
    own bytes, then a newline. *)
Definition rendered (E : Env) (templatestr : string) (l : list KeySummary.t) : list Event :=
  foldr (λ s acc, WriteOut (template_Execute E templatestr s).1 :: WriteOut nl :: acc) [] l.

Definition matches (key : string) (version : Z) (kv : mvccpb.KeyValue) : Prop :=
  mvccpb.Key kv = key ∧ mvccpb.Version kv = version.

#[global] Instance matches_dec key version kv : Decision (matches key version kv).
Proof. unfold matches. apply _. Defined.

#[global] Instance KeyValue_eq_dec : EqDecision mvccpb.KeyValue.
Proof. solve_decision. Defined.

(** * Properties *)

(** ** The walk *)

Section WalkFacts.
Variable E : Env.

Lemma walk_items_app {S} (f : visitor S) pre kvs rest s s1 :
  decode_items E pre = Ok kvs →
  visit_all f kvs s = Some s1 →
  walk_items E f (pre ++ rest) s = walk_items E f rest s1.
Proof.
  revert kvs s. induction pre as [|[k v] pre IH]; intros kvs s Hdec Hvis; simpl in *.
  - by simplify_eq/=.
  - destruct (Unmarshal E v) as [kv|] eqn:Hkv; [|done].
    destruct (decode_items E pre) as [kvs'|] eqn:Hpre; [|done].
    simplify_eq/=.
    destruct (f s kv) as [s' [[]|]] eqn:Hf; try done.
    by apply (IH kvs').
Qed.

Lemma walk_open {S} (f : visitor S) filename db items s :
  bolt_Open E filename = Ok db →
  bolt.Bucket db keyBucket = Some items →
  walk E filename f s = ([OpenFile filename; CloseFile filename], walk_items E f items s).
Proof. intros Hopen Hbucket. unfold walk. by rewrite Hopen, Hbucket. Qed.

(** A visitor that never stops and never fails sees every record, unless
    an item does not decode. *)
Lemma walk_items_forward {S} (f : visitor S) (step : S → mvccpb.KeyValue → S) items s :
  (∀ s kv, f s kv = (step s kv, Ok false)) →
  match decode_items E items with
  | Ok kvs => walk_items E f items s = (fold_left step kvs s, Done tt)
  | Err err => (walk_items E f items s).2 = Failed err
  end.
Proof.
  intros Hf. revert s. induction items as [|[k v] items IH]; intros s; simpl; [done|].
  destruct (Unmarshal E v) as [kv|] eqn:Hkv; [|done].
  rewrite Hf. specialize (IH (step s kv)).
  by destruct (decode_items E items).
Qed.
End WalkFacts.

(** C3 (as the code has it). When the visitor returns an error at a record
    that the walk reaches, the walk stops there: the items after it play no
    part and the visitor's state is the one it left at that record.  The
    error the caller receives is a new one, "Error handling key <key>", built
    from the key of the record; the visitor's own error is dropped. *)
Theorem walk_visitor_error_replaced {S} (E : Env) (f : visitor S)
    filename db pre kvs k v post kv s s1 s2 e :
  bolt_Open E filename = Ok db →
  bolt.Bucket db keyBucket = Some (pre ++ (k, v) :: post) →
  decode_items E pre = Ok kvs →
  visit_all f kvs s = Some s1 →
  Unmarshal E v = Ok kv →
  f s1 kv = (s2, Err e) →
  walk E filename f s =
    ([OpenFile filename; CloseFile filename],
     (s2, Failed (Errorf ("Error handling key " +:+ mvccpb.Key kv)))).
Proof.
  intros Hopen Hbucket Hpre Hvis Hkv Hf.
  rewrite (walk_open E f filename db _ s Hopen Hbucket).
  rewrite (walk_items_app E f pre kvs _ s s1 Hpre Hvis).
  simpl. by rewrite Hkv, Hf.
Qed.

Lemma walk_visitor_error_replaced_witness :
  walk (Sample.env [("1", "a1"); ("2", "b1"); ("3", "a2")]) "db" (Sample.failing_visit "/b") 0 =
    ([OpenFile "db"; CloseFile "db"], (1, Failed (Errorf "Error handling key /b"))).
Proof.
  apply (walk_visitor_error_replaced
           (Sample.env [("1", "a1"); ("2", "b1"); ("3", "a2")]) (Sample.failing_visit "/b")
           "db" (Sample.db [("1", "a1"); ("2", "b1"); ("3", "a2")])
           [("1", "a1")] [Sample.kv "/a" 1 "x"] "2" "b1" [("3", "a2")]
           (Sample.kv "/b" 1 "q") 0 1 1 (LibError "visit" "boom")); reflexivity.
Defined.

(** C3, the claim as stated fails: the visitor returns the error "boom" at
    the only record of the store, and the caller of [walk] receives another
    error. *)
Lemma walk_visitor_error_not_propagated :
  Sample.failing_visit "/a" 0 (Sample.kv "/a" 1 "x") = (0, Err (LibError "visit" "boom")) ∧
  (walk (Sample.env [("1", "a1")]) "db" (Sample.failing_visit "/a") 0).2.2 =
    Failed (Errorf "Error handling key /a") ∧
  Errorf "Error handling key /a" ≠ LibError "visit" "boom".
Proof. split; [reflexivity|]. split; [reflexivity|discriminate]. Qed.

(** C4 (as the code has it). When an item that the walk reaches does not
    decode, the walk stops there and returns the decoder's error as it is:
    nothing is wrapped around it, and no key is named (none was decoded). *)
Theorem walk_decode_error_unwrapped {S} (E : Env) (f : visitor S)
    filename db pre kvs k v post s s1 e :
  bolt_Open E filename = Ok db →
  bolt.Bucket db keyBucket = Some (pre ++ (k, v) :: post) →
  decode_items E pre = Ok kvs →
  visit_all f kvs s = Some s1 →
  Unmarshal E v = Err e →
  walk E filename f s = ([OpenFile filename; CloseFile filename], (s1, Failed e)).
Proof.
  intros Hopen Hbucket Hpre Hvis Hv.
  rewrite (walk_open E f filename db _ s Hopen Hbucket).
  rewrite (walk_items_app E f pre kvs _ s s1 Hpre Hvis).
  simpl. by rewrite Hv.
Qed.

Lemma walk_decode_error_unwrapped_witness :
  walk (Sample.env [("1", "a1"); ("2", "garbage"); ("3", "a2")]) "db" (listVersions_visit "/a") [] =
    ([OpenFile "db"; CloseFile "db"], ([1], Failed (LibError "proto" "unexpected EOF"))).
Proof.
  apply (walk_decode_error_unwrapped
           (Sample.env [("1", "a1"); ("2", "garbage"); ("3", "a2")]) (listVersions_visit "/a")
           "db" (Sample.db [("1", "a1"); ("2", "garbage"); ("3", "a2")])
           [("1", "a1")] [Sample.kv "/a" 1 "x"] "2" "garbage" [("3", "a2")]
           [] [1] (LibError "proto" "unexpected EOF")); reflexivity.
Defined.

(** C4, the claim as stated fails: the error of the walk over a store with
    an undecodable item is the decoder's own error, which names no key. *)
Lemma walk_decode_error_is_raw :
  Unmarshal (Sample.env []) "garbage" = Err (LibError "proto" "unexpected EOF") ∧
  (walk (Sample.env [("1", "garbage")]) "db" (listVersions_visit "/a") []).2.2 =
    Failed (LibError "proto" "unexpected EOF").
Proof. split; reflexivity. Qed.

(** ** Validation of the options *)

Lemma prefix_empty s : String.prefix "" s = true.
Proof. by destruct s. Qed.

Lemma UsageError_invalid_output o msg :
  UsageError (Errorf ("invalid --output " +:+ o +:+ ": " +:+ msg)) = true.
Proof. unfold UsageError. apply orb_true_iff. right. simpl. apply prefix_empty. Qed.

Lemma negb_bool_decide_false `{Decision P} : P → negb (bool_decide P) = false.
Proof. intros. by rewrite bool_decide_eq_true_2. Qed.

Lemma negb_bool_decide_true `{Decision P} : ¬ P → negb (bool_decide P) = true.
Proof. intros. by rewrite bool_decide_eq_false_2. Qed.

(** C2 (as the code has it). With --list-versions and --version both set and
    --leaf-item unset: when --key is empty, or --keys-by-prefix is set too,
    the program returns a usage error and has done no I/O and written
    nothing, whatever the files hold; when --key is set and --keys-by-prefix
    is not, and --output is valid, --version is ignored and the program is
    [printVersions] on the store. *)
Theorem list_versions_with_version (E : Env) (opts : extractOptions) :
  listVersions_ opts = true →
  version opts ≠ "" →
  leafItem opts = false →
  (key opts = "" ∨ keyPrefix opts ≠ "" →
     ∃ e, UsageError e = true ∧ extractValidateAndRun E opts = ([], Failed e)) ∧
  (key opts ≠ "" → keyPrefix opts = "" →
     ∀ outMediaType, encoding_ToMediaType E (out opts) = Ok outMediaType →
       extractValidateAndRun E opts = printVersions E (filename opts) (key opts)).
Proof.
  intros Hlist Hver Hleaf. unfold extractValidateAndRun. rewrite Hlist, Hleaf. split.
  - intros Hkey. destruct (encoding_ToMediaType E (out opts)) as [mt|err].
    + destruct (decide (key opts = "")) as [Hk|Hk].
      * rewrite (negb_bool_decide_false Hk). simpl. usage_error.
      * destruct Hkey as [?|Hp]; [done|].
        rewrite (negb_bool_decide_true Hk), (negb_bool_decide_true Hp). simpl.
        usage_error.
    + eexists. split; [|done]. apply UsageError_invalid_output.
  - intros Hk Hp mt ->.
    by rewrite (negb_bool_decide_true Hk), (negb_bool_decide_false Hp).
Qed.

Lemma list_versions_with_version_witness :
  (∃ e, UsageError e = true ∧
        extractValidateAndRun (Sample.env [("1", "a1")]) Sample.optsListVersionsVersion
          = ([], Failed e)) ∧
  extractValidateAndRun (Sample.env [("1", "a1")]) Sample.optsKeyListVersionsVersion
    = printVersions (Sample.env [("1", "a1")]) "db" "/a".
Proof.
  split.
  - apply (list_versions_with_version (Sample.env [("1", "a1")]) Sample.optsListVersionsVersion);
      [reflexivity|discriminate|reflexivity|left; reflexivity].
  - apply (list_versions_with_version (Sample.env [("1", "a1")]) Sample.optsKeyListVersionsVersion
             eq_refl ltac:(discriminate) eq_refl) with (outMediaType := "application/json");
      [discriminate|reflexivity|reflexivity].
Defined.

(** C2, the claim as stated fails: with --key=/a --list-versions --version=3
    the program opens the store and lists the versions of /a; it returns no
    error. *)
Lemma list_versions_with_version_and_key_runs :
  extractValidateAndRun (Sample.env [("1", "a1"); ("2", "a2")]) Sample.optsKeyListVersionsVersion
    = ([OpenFile "db"; CloseFile "db"; WriteOut ("1" +:+ nl); WriteOut ("2" +:+ nl)], Done tt).
Proof. vm_compute. reflexivity. Qed.

(** C5 (as the code has it). A field list counts as given when --fields
    differs from its default "key".  With a non-empty --template, such a
    field list, --leaf-item unset, and --key empty or --keys-by-prefix set,
    the program returns a usage error and has done no I/O and written
    nothing.  With --fields equal to "key" (typed or defaulted) and no other
    selector, the template is rendered from the store. *)
Theorem template_with_fields (E : Env) (opts : extractOptions) :
  template opts ≠ "" →
  leafItem opts = false →
  (fields opts ≠ Key → key opts = "" ∨ keyPrefix opts ≠ "" →
     ∃ e, UsageError e = true ∧ extractValidateAndRun E opts = ([], Failed e)) ∧
  (fields opts = Key → key opts = "" → listVersions_ opts = false → version opts = "" →
     ∀ outMediaType, encoding_ToMediaType E (out opts) = Ok outMediaType →
       extractValidateAndRun E opts
         = templateSummaries E (filename opts) (keyPrefix opts) (template opts)).
Proof.
  intros Htpl Hleaf. unfold extractValidateAndRun. rewrite Hleaf. split.
  - intros Hfields Hkey. destruct (encoding_ToMediaType E (out opts)) as [mt|err].
    + rewrite (negb_bool_decide_true Htpl), (negb_bool_decide_true Hfields).
      destruct (decide (key opts = "")) as [Hk|Hk].
      * rewrite (negb_bool_decide_false Hk). simpl.
        destruct (listVersions_ opts); [usage_error|].
        destruct (negb (bool_decide (version opts = ""))); usage_error.
      * destruct Hkey as [?|Hp]; [done|].
        rewrite (negb_bool_decide_true Hk), (negb_bool_decide_true Hp). simpl.
        usage_error.
    + eexists. split; [|done]. apply UsageError_invalid_output.
  - intros Hfields Hk Hlist Hver mt ->.
    rewrite (negb_bool_decide_false Hk), (negb_bool_decide_false Hver),
      (negb_bool_decide_false Hfields), (negb_bool_decide_true Htpl), Hlist.
    reflexivity.
Qed.

Lemma template_with_fields_witness :
  (∃ e, UsageError e = true ∧
        extractValidateAndRun (Sample.env [("1", "a1")]) Sample.optsTemplateFields
          = ([], Failed e)) ∧
  extractValidateAndRun (Sample.env [("1", "a1")]) Sample.optsTemplateFieldsKey
    = templateSummaries (Sample.env [("1", "a1")]) "db" "" "{{.Key}}".
Proof.
  split.
  - apply (template_with_fields (Sample.env [("1", "a1")]) Sample.optsTemplateFields);
      [discriminate|reflexivity|discriminate|left; reflexivity].
  - apply (template_with_fields (Sample.env [("1", "a1")]) Sample.optsTemplateFieldsKey
             ltac:(discriminate) eq_refl) with (outMediaType := "application/json");
      reflexivity.
Defined.

(** C5, the claim as stated fails: with --template={{.Key}} --fields=key the
    program opens the store and renders the template for each key; it
    returns no error. *)
Lemma template_with_fields_key_runs :
  extractValidateAndRun (Sample.env [("1", "a1"); ("2", "b1")]) Sample.optsTemplateFieldsKey
    = ([OpenFile "db"; CloseFile "db"; WriteOut "/a"; WriteOut nl; WriteOut "/b"; WriteOut nl], Done tt).
Proof. vm_compute. reflexivity. Qed.

(** ** The aggregator *)

Section Aggregator.
Variable E : Env.

Lemma listKeySummaries_visit_forward prefix m kv :
  listKeySummaries_visit E prefix m kv = (aggregate_step E prefix m kv, Ok false).
Proof.
  unfold aggregate_step, listKeySummaries_visit.
  destruct (bytes_HasPrefix _ _); [|done]. by destruct (m !! _).
Qed.

(** [listKeySummaries] in terms of the file: the open may fail, the bucket
    may be missing, an item may not decode; otherwise the sorted summaries
    of the aggregation. *)
Lemma listKeySummaries_cases filename prefix :
  listKeySummaries E filename prefix =
    match bolt_Open E filename with
    | Err err => ([OpenFile filename], Failed err)
    | Ok db =>
        ([OpenFile filename; CloseFile filename],
         match bolt.Bucket db keyBucket with
         | None => Panicked
         | Some items =>
             match decode_items E items with
             | Err err => Failed err
             | Ok kvs => Done (getSortedKeySummaries (aggregate E prefix kvs))
             end
         end)
    end.
Proof.
  unfold listKeySummaries, walk.
  destruct (bolt_Open E filename) as [db|err]; [|done].
  destruct (bolt.Bucket db keyBucket) as [items|]; [|done].
  pose proof (walk_items_forward E (listKeySummaries_visit E prefix)
                (aggregate_step E prefix) items ∅
                (listKeySummaries_visit_forward prefix)) as Hw.
  destruct (decode_items E items) as [kvs|err].
  - by rewrite Hw.
  - destruct (walk_items _ _ _ _) as [m r]. simpl in Hw. by subst r.
Qed.

Lemma aggregate_step_lookup prefix m kv k :
  aggregate_step E prefix m kv !! k =
    if decide (mvccpb.Key kv = k)
    then (if bytes_HasPrefix k prefix then sighting E (m !! k) kv else m !! k)
    else m !! k.
Proof.
  unfold aggregate_step, listKeySummaries_visit.
  destruct (decide (mvccpb.Key kv = k)) as [->|Hne].
  - destruct (bytes_HasPrefix _ _); [|done].
    destruct (m !! _) eqn:Hm; simpl; by rewrite lookup_insert_eq.
  - destruct (bytes_HasPrefix _ _); [|done].
    destruct (m !! mvccpb.Key kv); simpl; by rewrite lookup_insert_ne.
Qed.

Lemma fold_aggregate_lookup prefix kvs m k :
  fold_left (aggregate_step E prefix) kvs m !! k =
    if bytes_HasPrefix k prefix
    then fold_left (sighting E) (records_of k kvs) (m !! k)
    else m !! k.
Proof.
  revert m. induction kvs as [|kv kvs IH]; intros m; simpl.
  - by destruct (bytes_HasPrefix _ _).
  - rewrite IH, aggregate_step_lookup. unfold records_of.
    destruct (decide (mvccpb.Key kv = k)) as [Hk|Hk].
    + rewrite filter_cons_True by done. simpl. by destruct (bytes_HasPrefix _ _).
    + by rewrite filter_cons_False by done.
Qed.

Lemma aggregate_lookup prefix kvs k :
  aggregate E prefix kvs !! k =
    if bytes_HasPrefix k prefix
    then fold_left (sighting E) (records_of k kvs) None
    else None.
Proof. unfold aggregate. by rewrite fold_aggregate_lookup, lookup_empty. Qed.
End Aggregator.

(** ** Sorting the summaries *)

Section Sorting.

Lemma keyLess_le a b : keyLess a b = true ↔ key_le a b.
Proof.
  unfold keyLess, key_le, String.le, String.leb, strings_Compare.
  destruct (String.compare _ _); simpl; intuition (done || lia).
Qed.

Lemma key_lt_le a b : key_lt a b → key_le a b.
Proof. unfold key_lt, key_le, String.le, String.leb. by intros ->. Qed.

Lemma key_le_lt a b : key_le a b → KeySummary.Key a ≠ KeySummary.Key b → key_lt a b.
Proof.
  unfold key_lt, key_le, String.le, String.leb. intros Hle Hne.
  destruct (String.compare _ _) eqn:Hc; [|done..].
  by apply String.compare_eq_iff in Hc.
Qed.

Lemma key_lt_asym a b : key_lt a b → key_lt b a → False.
Proof.
  unfold key_lt. intros Hab Hba.
  rewrite String.compare_antisym, Hba in Hab. done.
Qed.

#[local] Instance key_le_trans : Transitive key_le.
Proof. intros a b c. unfold key_le. apply transitivity. Qed.

Lemma key_le_total a b : key_le a b ∨ key_le b a.
Proof. unfold key_le. apply (total String.le). Qed.

Lemma sort_insert_perm {A} (less : A → A → bool) x l : sort_insert less x l ≡ₚ x :: l.
Proof.
  induction l as [|y l IH]; simpl; [done|].
  destruct (less x y); [|done]. rewrite IH. apply Permutation_swap.
Qed.

Lemma sort_fold_perm {A} (less : A → A → bool) l acc :
  fold_left (λ acc x, sort_insert less x acc) l acc ≡ₚ l ++ acc.
Proof.
  revert acc. induction l as [|x l IH]; intros acc; simpl; [done|].
  rewrite IH, sort_insert_perm. by rewrite Permutation_middle.
Qed.

Lemma sort_Slice_perm {A} (less : A → A → bool) l : sort_Slice less l ≡ₚ l.
Proof. unfold sort_Slice. by rewrite reverse_Permutation, sort_fold_perm, app_nil_r. Qed.

(** The reversed prefix stays in descending order. *)
Lemma sort_insert_sorted x acc :
  StronglySorted (flip key_le) acc → StronglySorted (flip key_le) (sort_insert keyLess x acc).
Proof.
  induction 1 as [|y acc Hacc IH Hy]; simpl; [by repeat constructor|].
  destruct (keyLess x y) eqn:Hless.
  - constructor; [done|]. rewrite sort_insert_perm. constructor; [|done].
    by apply keyLess_le.
  - assert (key_le y x) as Hyx.
    { destruct (key_le_total x y) as [Hxy|]; [|done].
      apply keyLess_le in Hxy. congruence. }
    constructor; [by constructor|]. constructor; [done|].
    eapply Forall_impl; [exact Hy|]. intros z Hz. simpl in *. by etrans.
Qed.

Lemma sort_fold_sorted l acc :
  StronglySorted (flip key_le) acc →
  StronglySorted (flip key_le) (fold_left (λ acc x, sort_insert keyLess x acc) l acc).
Proof.
  revert acc. induction l as [|x l IH]; intros acc Hacc; simpl; [done|].
  by apply IH, sort_insert_sorted.
Qed.

Lemma StronglySorted_reverse {A} (R : relation A) l :
  StronglySorted (flip R) l → StronglySorted R (reverse l).
Proof.
  induction 1 as [|x l Hl IH Hx]; [constructor|].
  rewrite reverse_cons. apply StronglySorted_app. split_and!; [|done|repeat constructor].
  intros y z Hy Hz. rewrite elem_of_reverse in Hy. apply list_elem_of_singleton in Hz as ->.
  rewrite Forall_forall in Hx. by apply Hx.
Qed.

Lemma sort_Slice_sorted l : StronglySorted key_le (sort_Slice keyLess l).
Proof. apply StronglySorted_reverse, sort_fold_sorted. constructor. Qed.

Lemma StronglySorted_strict l :
  StronglySorted key_le l → NoDup (KeySummary.Key <$> l) → StronglySorted key_lt l.
Proof.
  induction 1 as [|x l Hl IH Hx]; intros Hnd; [constructor|].
  rewrite fmap_cons in Hnd. apply NoDup_cons in Hnd as [Hnotin Hnd].
  constructor; [by apply IH|].
  rewrite Forall_forall in Hx |- *. intros y Hy. apply key_le_lt; [by apply Hx|].
  intros Heq. apply Hnotin. rewrite Heq. by apply list_elem_of_fmap_2.
Qed.

Lemma StronglySorted_filter {A} (R : relation A) (P : A → Prop) `{∀ x, Decision (P x)} l :
  StronglySorted R l → StronglySorted R (filter P l).
Proof.
  induction 1 as [|x l Hl IH Hx]; [constructor|].
  destruct (decide (P x)).
  - rewrite filter_cons_True by done. constructor; [done|].
    rewrite Forall_forall in Hx |- *. intros y [_ Hy]%list_elem_of_filter. by apply Hx.
  - by rewrite filter_cons_False by done.
Qed.

Lemma Sorted_keyLess_strict l :
  Sorted (λ a b, keyLess a b = true) l → NoDup (KeySummary.Key <$> l) →
  StronglySorted key_lt l.
Proof.
  intros Hsorted. apply StronglySorted_strict, Sorted_StronglySorted; [apply _|].
  induction Hsorted as [|x l Hl IH Hhd]; constructor; [done|].
  destruct Hhd; constructor. by apply keyLess_le.
Qed.

(** Two lists of summaries in strict key order with the same members are
    the same list. *)
Lemma key_sorted_unique l1 l2 :
  StronglySorted key_lt l1 → StronglySorted key_lt l2 → l1 ≡ₚ l2 → l1 = l2.
Proof.
  apply StronglySorted_unique_strong. intros x1 x2 _ _ H12 H21.
  by destruct (key_lt_asym x1 x2).
Qed.

(** The order in which the map is ranged over does not show in the result. *)
Lemma getSortedKeySummaries_from_order order1 order2 :
  NoDup (KeySummary.Key <$> order1) → order1 ≡ₚ order2 →
  getSortedKeySummaries_from order1 = getSortedKeySummaries_from order2.
Proof.
  intros Hnd Hperm. unfold getSortedKeySummaries_from.
  apply key_sorted_unique.
  - apply StronglySorted_strict; [apply sort_Slice_sorted|].
    by rewrite sort_Slice_perm.
  - apply StronglySorted_strict; [apply sort_Slice_sorted|].
    by rewrite sort_Slice_perm, <-Hperm.
  - by rewrite !sort_Slice_perm.
Qed.
End Sorting.

(** ** The map of summaries *)

Section Summaries.
Variable E : Env.

Lemma newKeySummary_Key kv : KeySummary.Key (newKeySummary E kv) = mvccpb.Key kv.
Proof.
  unfold newKeySummary. destruct (convert _ _ _) as [buf [tm|err]]; reflexivity.
Qed.

Lemma newKeySummary_Version kv : KeySummary.Version (newKeySummary E kv) = mvccpb.Version kv.
Proof.
  unfold newKeySummary. destruct (convert _ _ _) as [buf [tm|err]]; reflexivity.
Qed.

Lemma newKeySummary_Stats kv :
  KeySummary.Stats (newKeySummary E kv) =
    {| KeySummaryStats.KeySize := len (mvccpb.Key kv);
       KeySummaryStats.ValueSize := len (mvccpb.Value kv);
       KeySummaryStats.AllVersionsKeySize := len (mvccpb.Key kv);
       KeySummaryStats.AllVersionsValueSize := len (mvccpb.Value kv);
       KeySummaryStats.VersionCount := 1 |}.
Proof.
  unfold newKeySummary. destruct (convert _ _ _) as [buf [tm|err]]; reflexivity.
Qed.

Lemma sighting_fold_Key k l o ks :
  (∀ kv, kv ∈ l → mvccpb.Key kv = k) →
  (∀ ks0, o = Some ks0 → KeySummary.Key ks0 = k) →
  fold_left (sighting E) l o = Some ks → KeySummary.Key ks = k.
Proof.
  revert o. induction l as [|kv l IH]; intros o Hl Ho Hf; simpl in *; [by apply Ho|].
  apply (IH (sighting E o kv)); [|clear Hf|done].
  - intros kv' ?. apply Hl. by right.
  - intros ks0 Hs. destruct o as [ks1|]; simpl in Hs; simplify_eq/=.
    + by apply Ho.
    + rewrite newKeySummary_Key. apply Hl. by left.
Qed.

Lemma aggregate_keyed prefix kvs : keyed (aggregate E prefix kvs).
Proof.
  intros k ks. rewrite aggregate_lookup.
  destruct (bytes_HasPrefix _ _); [|done].
  apply sighting_fold_Key; [|done].
  unfold records_of. by intros kv [? _]%list_elem_of_filter.
Qed.

Lemma keyed_keys m : keyed m → KeySummary.Key <$> values m = (map_to_list m).*1.
Proof.
  intros Hm. unfold values. rewrite <-list_fmap_compose.
  apply Forall_fmap_ext, Forall_forall. intros [k ks] Hin. simpl.
  apply Hm. by apply elem_of_map_to_list.
Qed.

Lemma keyed_NoDup m : keyed m → NoDup (KeySummary.Key <$> values m).
Proof. intros Hm. rewrite (keyed_keys m Hm). apply NoDup_fst_map_to_list. Qed.

Lemma elem_of_values m ks : keyed m → ks ∈ values m ↔ m !! KeySummary.Key ks = Some ks.
Proof.
  intros Hm. unfold values. rewrite list_elem_of_fmap. split.
  - intros [[k ks'] [-> Hin]]. apply elem_of_map_to_list in Hin. simpl.
    by rewrite (Hm _ _ Hin).
  - intros Hks. exists (KeySummary.Key ks, ks). split; [done|].
    by apply elem_of_map_to_list.
Qed.

Lemma getSortedKeySummaries_perm m : getSortedKeySummaries m ≡ₚ values m.
Proof. apply sort_Slice_perm. Qed.

Lemma getSortedKeySummaries_sorted m :
  keyed m → StronglySorted key_lt (getSortedKeySummaries m).
Proof.
  intros Hm. apply StronglySorted_strict; [apply sort_Slice_sorted|].
  rewrite getSortedKeySummaries_perm. by apply keyed_NoDup.
Qed.

(** Whatever algorithm [sort.Slice] runs: a permutation of the values that is
    in order for [keyLess] is the list [getSortedKeySummaries] returns. *)
Lemma getSortedKeySummaries_any_sort m l :
  keyed m → l ≡ₚ values m → Sorted (λ a b, keyLess a b = true) l →
  l = getSortedKeySummaries m.
Proof.
  intros Hm Hperm Hsorted. apply key_sorted_unique.
  - apply Sorted_keyLess_strict; [done|]. rewrite Hperm. by apply keyed_NoDup.
  - by apply getSortedKeySummaries_sorted.
  - by rewrite getSortedKeySummaries_perm.
Qed.

Lemma elem_of_getSortedKeySummaries m ks :
  keyed m → ks ∈ getSortedKeySummaries m ↔ m !! KeySummary.Key ks = Some ks.
Proof. intros Hm. rewrite getSortedKeySummaries_perm. by apply elem_of_values. Qed.

(** The aggregation under a prefix is the aggregation of everything,
    restricted to the keys with the prefix. *)
Lemma bytes_HasPrefix_empty k : bytes_HasPrefix k "" = true.
Proof. apply prefix_empty. Qed.

Lemma aggregate_prefix prefix kvs k :
  aggregate E prefix kvs !! k =
    if bytes_HasPrefix k prefix then aggregate E "" kvs !! k else None.
Proof. by rewrite !aggregate_lookup, bytes_HasPrefix_empty. Qed.

Lemma getSortedKeySummaries_prefix prefix kvs :
  getSortedKeySummaries (aggregate E prefix kvs) =
    filter (has_prefix prefix) (getSortedKeySummaries (aggregate E "" kvs)).
Proof.
  apply key_sorted_unique.
  - apply getSortedKeySummaries_sorted, aggregate_keyed.
  - apply StronglySorted_filter, getSortedKeySummaries_sorted, aggregate_keyed.
  - apply NoDup_Permutation.
    + eapply NoDup_fmap_1. rewrite getSortedKeySummaries_perm.
      apply keyed_NoDup, aggregate_keyed.
    + apply NoDup_filter. eapply NoDup_fmap_1. rewrite getSortedKeySummaries_perm.
      apply keyed_NoDup, aggregate_keyed.
    + intros ks. rewrite list_elem_of_filter.
      rewrite !elem_of_getSortedKeySummaries by apply aggregate_keyed.
      rewrite aggregate_prefix. unfold has_prefix.
      destruct (bytes_HasPrefix _ _); naive_solver.
Qed.

Lemma fold_sighting_None l o :
  fold_left (sighting E) l o = None ↔ l = [] ∧ o = None.
Proof.
  revert o. induction l as [|kv l IH]; intros o; simpl; [naive_solver|].
  rewrite IH. destruct o; naive_solver.
Qed.

(** The keys the map holds: those of the records with the prefix. *)
Lemma aggregate_dom prefix kvs k :
  is_Some (aggregate E prefix kvs !! k) ↔
    bytes_HasPrefix k prefix = true ∧ k ∈ mvccpb.Key <$> kvs.
Proof.
  rewrite aggregate_lookup. destruct (bytes_HasPrefix _ _).
  - rewrite <-not_eq_None_Some, fold_sighting_None, list_elem_of_fmap.
    unfold records_of. split.
    + intros Hne. split; [done|].
      destruct (filter _ kvs) as [|kv l] eqn:Hf; [naive_solver|].
      assert (kv ∈ filter (λ kv, mvccpb.Key kv = k) kvs) as Hin by (rewrite Hf; left).
      apply list_elem_of_filter in Hin as [? ?]. by exists kv.
    + intros [_ (kv & -> & Hin)] [Hnil _].
      assert (kv ∈ filter (λ kv', mvccpb.Key kv' = mvccpb.Key kv) kvs) as Hin'
        by (by apply list_elem_of_filter).
      rewrite Hnil in Hin'. by apply elem_of_nil in Hin'.
  - split; [by intros [? ?]|by intros [? _]].
Qed.

Lemma elem_of_keys_values m k :
  keyed m → k ∈ KeySummary.Key <$> values m ↔ is_Some (m !! k).
Proof.
  intros Hm. rewrite (keyed_keys m Hm), list_elem_of_fmap. split.
  - intros [[k' ks] [-> Hin]]. apply elem_of_map_to_list in Hin. by exists ks.
  - intros [ks Hks]. exists (k, ks). split; [done|]. by apply elem_of_map_to_list.
Qed.
End Summaries.

(** C7. [listKeySummaries] with the empty prefix returns its summaries in
    strictly ascending byte-wise order of their keys, so no key occurs
    twice; and it does return them, one for each key of the store, whenever
    the file opens, holds the key bucket and all its items decode. *)
Theorem listKeySummaries_sorted (E : Env) (filename : string) :
  (∀ t l, listKeySummaries E filename "" = (t, Done l) →
     StronglySorted key_lt l ∧ NoDup (KeySummary.Key <$> l)) ∧
  (∀ db items kvs,
     bolt_Open E filename = Ok db →
     bolt.Bucket db keyBucket = Some items →
     decode_items E items = Ok kvs →
     ∃ l, listKeySummaries E filename "" = ([OpenFile filename; CloseFile filename], Done l) ∧
          ∀ k, k ∈ KeySummary.Key <$> l ↔ k ∈ mvccpb.Key <$> kvs).
Proof.
  split.
  - intros t l Hl. rewrite listKeySummaries_cases in Hl.
    destruct (bolt_Open E filename) as [db|]; [|done].
    destruct (bolt.Bucket db keyBucket) as [items|]; [|done].
    destruct (decode_items E items) as [kvs|]; [|done].
    simplify_eq/=. split.
    + apply getSortedKeySummaries_sorted, aggregate_keyed.
    + rewrite getSortedKeySummaries_perm. apply keyed_NoDup, aggregate_keyed.
  - intros db items kvs Hopen Hbucket Hdec.
    rewrite listKeySummaries_cases, Hopen, Hbucket, Hdec.
    eexists. split; [done|]. intros k.
    rewrite getSortedKeySummaries_perm, elem_of_keys_values by apply aggregate_keyed.
    rewrite aggregate_dom, bytes_HasPrefix_empty. naive_solver.
Qed.

Lemma listKeySummaries_sorted_witness :
  ∃ l, listKeySummaries (Sample.env [("1", "b1"); ("2", "a2"); ("3", "c7"); ("4", "a1")]) "db" ""
         = ([OpenFile "db"; CloseFile "db"], Done l) ∧
       (∀ k, k ∈ KeySummary.Key <$> l ↔
             k ∈ mvccpb.Key <$> [Sample.kv "/b" 1 "q"; Sample.kv "/a" 2 "xy";
                                 Sample.kv "/a/c" 7 ""; Sample.kv "/a" 1 "x"]) ∧
       StronglySorted key_lt l ∧ NoDup (KeySummary.Key <$> l).
Proof.
  destruct (proj2 (listKeySummaries_sorted
                     (Sample.env [("1", "b1"); ("2", "a2"); ("3", "c7"); ("4", "a1")]) "db")
              (Sample.db [("1", "b1"); ("2", "a2"); ("3", "c7"); ("4", "a1")])
              [("1", "b1"); ("2", "a2"); ("3", "c7"); ("4", "a1")]
              [Sample.kv "/b" 1 "q"; Sample.kv "/a" 2 "xy"; Sample.kv "/a/c" 7 "";
               Sample.kv "/a" 1 "x"]
              eq_refl eq_refl eq_refl) as (l & Hl & Hkeys).
  exists l. split; [exact Hl|]. split; [exact Hkeys|].
  exact (proj1 (listKeySummaries_sorted
                  (Sample.env [("1", "b1"); ("2", "a2"); ("3", "c7"); ("4", "a1")]) "db")
           _ l Hl).
Defined.

(** C8. [listKeySummaries] with a prefix ends as it does with the empty
    prefix, with the same events; when it returns summaries, they are those
    of the empty prefix whose key starts with the prefix, in the same order,
    each one equal field by field to the unfiltered one. *)
Theorem listKeySummaries_prefix (E : Env) (filename prefix : string) :
  listKeySummaries E filename prefix =
    ((listKeySummaries E filename "").1,
     outcome_map (filter (has_prefix prefix)) (listKeySummaries E filename "").2).
Proof.
  rewrite !listKeySummaries_cases.
  destruct (bolt_Open E filename) as [db|]; [|done]. simpl.
  destruct (bolt.Bucket db keyBucket) as [items|]; [|done].
  destruct (decode_items E items) as [kvs|]; [|done]. simpl.
  by rewrite getSortedKeySummaries_prefix.
Qed.

Example listKeySummaries_prefix_sample :
  outcome_map (fmap KeySummary.Key)
    (listKeySummaries (Sample.env [("1", "b1"); ("2", "a2"); ("3", "c7"); ("4", "a1")]) "db" "/a").2
  = Done ["/a"; "/a/c"].
Proof. vm_compute. reflexivity. Qed.

(** ** Versions *)

Section Versions.
Variable E : Env.

(** The running maximum kept by [maxInSlice], and by the aggregator in
    [Version]: it starts at [r0] and takes each strictly greater element. *)
Lemma running_max s r0 :
  let r := fold_left (λ r e, if e >? r then e else r) s r0 in
  r0 ≤ r ∧ (∀ e, e ∈ s → e ≤ r) ∧ (r = r0 ∨ r ∈ s).
Proof.
  revert r0. induction s as [|x s IH]; intros r0; simpl.
  - split; [lia|]. split; [|by left]. by intros e ?%elem_of_nil.
  - destruct (Z.gtb_spec x r0) as [Hgt|Hngt];
      [destruct (IH x) as (Hle & Hall & Hin)|destruct (IH r0) as (Hle & Hall & Hin)];
      (split; [lia|split]).
    + intros e [->|?]%elem_of_cons; [lia|by apply Hall].
    + destruct Hin as [->|?]; right; [by left|by right].
    + intros e [->|?]%elem_of_cons; [lia|by apply Hall].
    + destruct Hin as [->|?]; [by left|right; by right].
Qed.

Lemma maxInSlice_max s v :
  v ∈ s → (∀ e, e ∈ s → e ≤ v) → maxInSlice s = Z.max 0 v.
Proof.
  intros Hv Hmax. unfold maxInSlice.
  destruct (running_max s 0) as (Hle & Hall & Hin). simpl in *.
  specialize (Hall v Hv). destruct Hin as [Heq|Hin]; [rewrite Heq in *; lia|].
  specialize (Hmax _ Hin). lia.
Qed.

Lemma listVersions_visit_forward key result kv :
  listVersions_visit key result kv =
    (if decide (mvccpb.Key kv = key) then result ++ [mvccpb.Version kv] else result, Ok false).
Proof. unfold listVersions_visit. by destruct (decide _). Qed.

Lemma listVersions_fold key kvs result :
  fold_left (λ result kv,
      if decide (mvccpb.Key kv = key) then result ++ [mvccpb.Version kv] else result)
    kvs result
  = result ++ (mvccpb.Version <$> records_of key kvs).
Proof.
  revert result. induction kvs as [|kv kvs IH]; intros result; simpl.
  - by rewrite app_nil_r.
  - rewrite IH. unfold records_of. destruct (decide (mvccpb.Key kv = key)).
    + rewrite filter_cons_True by done. by rewrite <-app_assoc.
    + by rewrite filter_cons_False by done.
Qed.

(** [listVersions] in terms of the file. *)
Lemma listVersions_cases filename key :
  listVersions E filename key =
    match bolt_Open E filename with
    | Err err => ([OpenFile filename], Failed err)
    | Ok db =>
        ([OpenFile filename; CloseFile filename],
         match bolt.Bucket db keyBucket with
         | None => Panicked
         | Some items =>
             match decode_items E items with
             | Err err => Failed err
             | Ok kvs => Done (mvccpb.Version <$> records_of key kvs)
             end
         end)
    end.
Proof.
  unfold listVersions, walk.
  destruct (bolt_Open E filename) as [db|err]; [|done].
  destruct (bolt.Bucket db keyBucket) as [items|]; [|done].
  pose proof (walk_items_forward E (listVersions_visit key) _ items []
                (listVersions_visit_forward key)) as Hw.
  destruct (decode_items E items) as [kvs|err].
  - by rewrite Hw, listVersions_fold.
  - destruct (walk_items _ _ _ _) as [m r]. simpl in Hw. by subst r.
Qed.

(** Later sightings of a key, applied to its summary. *)
Lemma fold_sighting_Some l ks :
  fold_left (sighting E) l (Some ks) = Some (fold_left updateKeySummary l ks).
Proof. revert ks. induction l as [|kv l IH]; intros ks; simpl; [done|]. apply IH. Qed.

Lemma fold_update_Version l ks :
  KeySummary.Version (fold_left updateKeySummary l ks) =
    fold_left (λ r e, if e >? r then e else r) (mvccpb.Version <$> l) (KeySummary.Version ks).
Proof. revert ks. induction l as [|kv l IH]; intros ks; simpl; [done|]. by rewrite IH. Qed.

Lemma fold_update_Value l ks :
  KeySummary.Value (fold_left updateKeySummary l ks) = KeySummary.Value ks ∧
  KeySummary.TypeMeta (fold_left updateKeySummary l ks) = KeySummary.TypeMeta ks.
Proof.
  revert ks. induction l as [|kv l IH]; intros ks; simpl; [done|].
  destruct (IH (updateKeySummary ks kv)) as [-> ->]. done.
Qed.

(** The summary the map holds for a key with records: the first record
    makes it, the others update it. *)
Lemma aggregate_lookup_records prefix kvs k first rest :
  bytes_HasPrefix k prefix = true →
  records_of k kvs = first :: rest →
  aggregate E prefix kvs !! k = Some (fold_left updateKeySummary rest (newKeySummary E first)).
Proof.
  intros Hp Hrec. rewrite aggregate_lookup, Hp, Hrec. simpl. apply fold_sighting_Some.
Qed.

Lemma summary_Version_max first rest v :
  v ∈ mvccpb.Version <$> first :: rest →
  (∀ e, e ∈ mvccpb.Version <$> first :: rest → e ≤ v) →
  KeySummary.Version (fold_left updateKeySummary rest (newKeySummary E first)) = v.
Proof.
  intros Hv Hmax. rewrite fold_update_Version, newKeySummary_Version.
  destruct (running_max (mvccpb.Version <$> rest) (mvccpb.Version first)) as (Hle & Hall & Hin).
  rewrite fmap_cons in Hv, Hmax. simpl in Hle, Hall, Hin.
  assert (v ≤ fold_left (λ r e, if e >? r then e else r)
                (mvccpb.Version <$> rest) (mvccpb.Version first)) as Hv'.
  { apply elem_of_cons in Hv as [->|Hv]; [done|by apply Hall]. }
  assert (fold_left (λ r e, if e >? r then e else r)
            (mvccpb.Version <$> rest) (mvccpb.Version first) ≤ v); [|lia].
  apply Hmax. destruct Hin as [->|?]; [by left|by right].
Qed.
End Versions.

(** C6. A key whose records carry exactly the versions v1 < v2 < v3
    (versions are counters, so not negative: the proof needs this of v3
    only), in any physical order among any other records, gets one summary,
    with [Version] v3 and [VersionCount] 3; [listVersions] returns the three
    versions in walk order and their maximum, as [maxInSlice] computes it,
    is v3. *)
Theorem three_versions_latest (E : Env) filename prefix db items kvs k v1 v2 v3 :
  bolt_Open E filename = Ok db →
  bolt.Bucket db keyBucket = Some items →
  decode_items E items = Ok kvs →
  mvccpb.Version <$> records_of k kvs ≡ₚ [v1; v2; v3] →
  v1 < v2 < v3 →
  0 ≤ v3 →
  bytes_HasPrefix k prefix = true →
  (∃ l ks,
     listKeySummaries E filename prefix = ([OpenFile filename; CloseFile filename], Done l) ∧
     ks ∈ l ∧ KeySummary.Key ks = k ∧
     (∀ ks', ks' ∈ l → KeySummary.Key ks' = k → ks' = ks) ∧
     KeySummary.Version ks = v3 ∧
     KeySummaryStats.VersionCount (KeySummary.Stats ks) = 3) ∧
  (∃ versions,
     listVersions E filename k = ([OpenFile filename; CloseFile filename], Done versions) ∧
     versions ≡ₚ [v1; v2; v3] ∧
     maxInSlice versions = v3).
Proof.
  intros Hopen Hbucket Hdec Hperm Hlt Hpos Hprefix.
  assert (v3 ∈ mvccpb.Version <$> records_of k kvs) as Hin.
  { rewrite Hperm. set_solver. }
  assert (∀ e, e ∈ mvccpb.Version <$> records_of k kvs → e ≤ v3) as Hmax.
  { intros e. rewrite Hperm. rewrite !elem_of_cons, elem_of_nil. lia. }
  split.
  - rewrite listKeySummaries_cases, Hopen, Hbucket, Hdec.
    pose proof (Permutation_length Hperm) as Hlen. rewrite length_fmap in Hlen.
    destruct (records_of k kvs) as [|first [|second [|third [|]]]] eqn:Hrec; try done.
    pose proof (aggregate_lookup_records E prefix kvs k _ _ Hprefix Hrec) as Hks.
    eexists _, _. split; [done|]. split_and!.
    + apply elem_of_getSortedKeySummaries; [apply aggregate_keyed|].
      by rewrite (aggregate_keyed E _ _ _ _ Hks).
    + by apply (aggregate_keyed E _ _ _ _ Hks).
    + intros ks' Hks' Hk. apply elem_of_getSortedKeySummaries in Hks'; [|apply aggregate_keyed].
      rewrite Hk, Hks in Hks'. by simplify_eq.
    + by apply summary_Version_max.
    + simpl. by rewrite newKeySummary_Stats.
  - rewrite listVersions_cases, Hopen, Hbucket, Hdec.
    eexists. split; [done|]. split; [done|].
    rewrite (maxInSlice_max _ v3 Hin Hmax). lia.
Qed.

Lemma three_versions_latest_witness :
  (∃ l ks,
     listKeySummaries (Sample.env [("1", "a2"); ("2", "b1"); ("3", "a3"); ("4", "a1")]) "db" ""
       = ([OpenFile "db"; CloseFile "db"], Done l) ∧
     ks ∈ l ∧ KeySummary.Key ks = "/a" ∧
     (∀ ks', ks' ∈ l → KeySummary.Key ks' = "/a" → ks' = ks) ∧
     KeySummary.Version ks = 3 ∧
     KeySummaryStats.VersionCount (KeySummary.Stats ks) = 3) ∧
  (∃ versions,
     listVersions (Sample.env [("1", "a2"); ("2", "b1"); ("3", "a3"); ("4", "a1")]) "db" "/a"
       = ([OpenFile "db"; CloseFile "db"], Done versions) ∧
     versions ≡ₚ [1; 2; 3] ∧
     maxInSlice versions = 3).
Proof.
  assert (mvccpb.Version <$>
            records_of "/a" [Sample.kv "/a" 2 "xy"; Sample.kv "/b" 1 "q";
                             Sample.kv "/a" 3 "xyz"; Sample.kv "/a" 1 "x"]
          ≡ₚ [1; 2; 3]) as Hperm.
  { symmetry. apply (Permutation_cons_append [2; 3] 1). }
  exact (three_versions_latest
           (Sample.env [("1", "a2"); ("2", "b1"); ("3", "a3"); ("4", "a1")]) "db" ""
           (Sample.db [("1", "a2"); ("2", "b1"); ("3", "a3"); ("4", "a1")])
           [("1", "a2"); ("2", "b1"); ("3", "a3"); ("4", "a1")]
           [Sample.kv "/a" 2 "xy"; Sample.kv "/b" 1 "q"; Sample.kv "/a" 3 "xyz";
            Sample.kv "/a" 1 "x"]
           "/a" 1 2 3 eq_refl eq_refl eq_refl Hperm ltac:(lia) ltac:(lia) eq_refl).
Defined.

(** ** The decoded value of a summary *)

(** The decoded value and the type metadata of a summary are made once, from
    the first record of the key that the walk meets; no later record
    changes them. *)
Lemma summary_Value_first (E : Env) prefix kvs ks first rest :
  ks ∈ getSortedKeySummaries (aggregate E prefix kvs) →
  records_of (KeySummary.Key ks) kvs = first :: rest →
  KeySummary.Value ks = KeySummary.Value (newKeySummary E first) ∧
  KeySummary.TypeMeta ks = KeySummary.TypeMeta (newKeySummary E first).
Proof.
  intros Hin Hrec.
  apply elem_of_getSortedKeySummaries in Hin; [|apply aggregate_keyed].
  rewrite aggregate_lookup, Hrec in Hin.
  destruct (bytes_HasPrefix _ _); [|done]. simpl in Hin.
  rewrite fold_sighting_Some in Hin. simplify_eq. apply fold_update_Value.
Qed.

(** ** Printing the summaries *)

Section Printing.
Variable E : Env.

Lemma summarize_field_known s field :
  field ∈ SummaryFields → ∃ v, summarize_field E s field = Ok v.
Proof.
  unfold SummaryFields, summarize_field. rewrite !elem_of_cons, elem_of_nil.
  intros Hf. repeat (destruct (decide _); [by eexists|]). naive_solver.
Qed.

Lemma summarize_field_unknown s field :
  field ∉ SummaryFields →
  summarize_field E s field = Err (Errorf ("unrecognized field: " +:+ field)).
Proof.
  unfold SummaryFields, summarize_field. rewrite !not_elem_of_cons.
  intros (? & ? & ? & ? & ? & _). by repeat (destruct (decide _); [done|]).
Qed.

(** [summarize] fails at the first unrecognized name of the list. *)
Lemma summarize_unknown s good bad rest :
  Forall (λ field, field ∈ SummaryFields) good →
  bad ∉ SummaryFields →
  summarize E s (good ++ bad :: rest) = Err (Errorf ("unrecognized field: " +:+ bad)).
Proof.
  intros Hgood Hbad. unfold summarize.
  assert (summarize_values E s (good ++ bad :: rest)
          = Err (Errorf ("unrecognized field: " +:+ bad))) as ->; [|done].
  induction Hgood as [|field good Hfield _ IH]; simpl.
  - by rewrite summarize_field_unknown.
  - destruct (summarize_field_known s field Hfield) as [v ->]. by rewrite IH.
Qed.
End Printing.

(** C9 (as the code has it). The field names are checked while the first
    summary is rendered.  On a store that opens, holds the key bucket and
    decodes, with a field list holding an unrecognized name: if a record has
    the prefix, [printKeySummaries] fails with "unrecognized field: <name>"
    for the first such name, having written nothing; if no record has the
    prefix (an empty store, say), it returns without error, having written
    nothing. *)
Theorem printKeySummaries_unknown_field (E : Env)
    filename prefix db items kvs good bad rest :
  bolt_Open E filename = Ok db →
  bolt.Bucket db keyBucket = Some items →
  decode_items E items = Ok kvs →
  Forall (λ field, field ∈ SummaryFields) good →
  bad ∉ SummaryFields →
  ((∃ kv, kv ∈ kvs ∧ bytes_HasPrefix (mvccpb.Key kv) prefix = true) →
     printKeySummaries E filename prefix (good ++ bad :: rest) =
       ([OpenFile filename; CloseFile filename],
        Failed (Errorf ("unrecognized field: " +:+ bad)))) ∧
  ((∀ kv, kv ∈ kvs → bytes_HasPrefix (mvccpb.Key kv) prefix = false) →
     printKeySummaries E filename prefix (good ++ bad :: rest) =
       ([OpenFile filename; CloseFile filename], Done tt)).
Proof.
  intros Hopen Hbucket Hdec Hgood Hbad.
  unfold printKeySummaries.
  rewrite decide_False by (rewrite length_app; simpl; lia).
  rewrite listKeySummaries_cases, Hopen, Hbucket, Hdec. simpl.
  destruct (getSortedKeySummaries (aggregate E prefix kvs)) as [|s l] eqn:Hl; simpl.
  - split; [|done]. intros (kv & Hkv & Hp). exfalso.
    assert (is_Some (aggregate E prefix kvs !! mvccpb.Key kv)) as [ks Hks].
    { apply aggregate_dom. split; [done|]. by apply list_elem_of_fmap_2. }
    assert (ks ∈ getSortedKeySummaries (aggregate E prefix kvs)) as Hin.
    { apply elem_of_getSortedKeySummaries; [apply aggregate_keyed|].
      by rewrite (aggregate_keyed E _ _ _ _ Hks). }
    rewrite Hl in Hin. by apply elem_of_nil in Hin.
  - rewrite (summarize_unknown E s good bad rest Hgood Hbad). simpl.
    split; [done|]. intros Hnone. exfalso.
    assert (s ∈ getSortedKeySummaries (aggregate E prefix kvs)) as Hin by (rewrite Hl; left).
    apply elem_of_getSortedKeySummaries in Hin; [|apply aggregate_keyed].
    assert (is_Some (aggregate E prefix kvs !! KeySummary.Key s)) as Hs by (by eexists).
    apply aggregate_dom in Hs as [Hp (kv & Hk & Hkv)%list_elem_of_fmap].
    specialize (Hnone kv Hkv). congruence.
Qed.

Lemma printKeySummaries_unknown_field_witness :
  printKeySummaries (Sample.env [("1", "a1"); ("2", "b1")]) "db" "/a" ["key"; "bogus"; "value"] =
    ([OpenFile "db"; CloseFile "db"], Failed (Errorf "unrecognized field: bogus")) ∧
  printKeySummaries (Sample.env [("1", "a1"); ("2", "b1")]) "db" "/z" ["key"; "bogus"; "value"] =
    ([OpenFile "db"; CloseFile "db"], Done tt).
Proof.
  split.
  - apply (printKeySummaries_unknown_field
             (Sample.env [("1", "a1"); ("2", "b1")]) "db" "/a"
             (Sample.db [("1", "a1"); ("2", "b1")]) [("1", "a1"); ("2", "b1")]
             [Sample.kv "/a" 1 "x"; Sample.kv "/b" 1 "q"] ["key"] "bogus" ["value"]);
      try reflexivity.
    + repeat constructor.
    + vm_compute. intros H. by repeat (apply elem_of_cons in H as [H|H]; [discriminate|]);
        apply elem_of_nil in H.
    + exists (Sample.kv "/a" 1 "x"). split; [by left|reflexivity].
  - apply (printKeySummaries_unknown_field
             (Sample.env [("1", "a1"); ("2", "b1")]) "db" "/z"
             (Sample.db [("1", "a1"); ("2", "b1")]) [("1", "a1"); ("2", "b1")]
             [Sample.kv "/a" 1 "x"; Sample.kv "/b" 1 "q"] ["key"] "bogus" ["value"]);
      try reflexivity.
    + repeat constructor.
    + vm_compute. intros H. by repeat (apply elem_of_cons in H as [H|H]; [discriminate|]);
        apply elem_of_nil in H.
    + intros kv Hkv. repeat (apply elem_of_cons in Hkv as [->|Hkv]; [reflexivity|]).
      by apply elem_of_nil in Hkv.
Defined.

(** C9, the claim as stated fails: over an empty store the field list
    ["bogus"] gives no error at all; over a file that is not a bolt
    database the error is that of the open. *)
Lemma printKeySummaries_bogus_on_empty_store :
  printKeySummaries (Sample.env []) "db" "" ["bogus"] =
    ([OpenFile "db"; CloseFile "db"], Done tt) ∧
  printKeySummaries (Sample.env []) "notes.txt" "" ["bogus"] =
    ([OpenFile "notes.txt"], Failed (LibError "bolt" "invalid database")).
Proof. split; vm_compute; reflexivity. Qed.

(** ** Single-value extraction *)

Section Extraction.
Variable E : Env.

Lemma decode_items_app a b :
  decode_items E (a ++ b) =
    match decode_items E a with
    | Err err => Err err
    | Ok kvs =>
        match decode_items E b with
        | Err err => Err err
        | Ok kvs' => Ok (kvs ++ kvs')
        end
    end.
Proof.
  induction a as [|[k v] a IH]; simpl.
  - by destruct (decode_items E b).
  - destruct (Unmarshal E v); [|done]. rewrite IH.
    destruct (decode_items E a); [|done]. by destruct (decode_items E b).
Qed.

(** Records that do not match leave the closure of [getValue] as it was. *)
Lemma getValue_visit_skip key version pre s :
  (∀ kv, kv ∈ pre → ¬ (mvccpb.Key kv = key ∧ mvccpb.Version kv = version)) →
  visit_all (getValue_visit key version) pre s = Some s.
Proof.
  induction pre as [|kv pre IH]; intros Hpre; simpl; [done|].
  unfold getValue_visit at 1. rewrite decide_False by (apply Hpre; by left).
  apply IH. intros kv' ?. apply Hpre. by right.
Qed.

(** [getValue] returns the value of the first record with the key and the
    version, provided the items before it decode. *)
Lemma getValue_first_match filename key version db ipre ik iv ipost pre kv :
  bolt_Open E filename = Ok db →
  bolt.Bucket db keyBucket = Some (ipre ++ (ik, iv) :: ipost) →
  decode_items E ipre = Ok pre →
  Unmarshal E iv = Ok kv →
  (∀ kv', kv' ∈ pre → ¬ (mvccpb.Key kv' = key ∧ mvccpb.Version kv' = version)) →
  mvccpb.Key kv = key → mvccpb.Version kv = version →
  getValue E filename key version =
    ([OpenFile filename; CloseFile filename], Done (mvccpb.Value kv)).
Proof.
  intros Hopen Hbucket Hpre Hkv Hskip Hk Hv. unfold getValue.
  rewrite (walk_open E _ filename db _ _ Hopen Hbucket).
  rewrite (walk_items_app E _ ipre pre _ _ _ Hpre (getValue_visit_skip key version pre _ Hskip)).
  simpl. rewrite Hkv. unfold getValue_visit. by rewrite decide_True.
Qed.
End Extraction.


Lemma decode_items_lookup (E : Env) items kvs i kv :
  decode_items E items = Ok kvs →
  kvs !! i = Some kv →
  ∃ ipre ik iv ipost,
    items = ipre ++ (ik, iv) :: ipost ∧
    decode_items E ipre = Ok (take i kvs) ∧
    Unmarshal E iv = Ok kv.
Proof.
  revert kvs i. induction items as [|[k v] items IH]; intros kvs i Hdec Hi; simpl in Hdec.
  - by simplify_eq.
  - destruct (Unmarshal E v) as [kv0|] eqn:Hv; [|done].
    destruct (decode_items E items) as [kvs0|] eqn:Hitems; [|done]. simplify_eq.
    destruct i as [|i]; simpl in Hi.
    + simplify_eq. by exists [], k, v, items.
    + destruct (IH kvs0 i eq_refl Hi) as (ipre & ik & iv & ipost & -> & Hpre & Hkv).
      exists ((k, v) :: ipre), ik, iv, ipost. split; [done|]. split; [|done].
      simpl. by rewrite Hv, Hpre.
Qed.




(** ** The program on the sample store *)

Example split_fields : strings_Split "key,version-count,value-size" ","%char
                       = ["key"; "version-count"; "value-size"].
Proof. reflexivity. Qed.

Example split_empty : strings_Split "" ","%char = [""].
Proof. reflexivity. Qed.

(** The scenario of two versions of /a listed with key, version-count and
    value-size. *)
Example list_two_versions :
  printKeySummaries (Sample.env [("1", "a1"); ("2", "a2")]) "db" ""
    ["key"; "version-count"; "value-size"]
  = ([OpenFile "db"; CloseFile "db"; WriteOut ("/a 2 2" +:+ nl)], Done tt).
Proof. vm_compute. reflexivity. Qed.

(** A key without records: no version is found, nothing is written. *)
Example missing_key :
  printValue (Sample.env [("1", "a1")]) "db" "/missing" "" false "application/json"
  = ([OpenFile "db"; CloseFile "db"], Failed (Errorf "No versions found for key: /missing")).
Proof. vm_compute. reflexivity. Qed.

(** The latest version of /a is fetched by a second walk. *)
Example latest_value :
  printValue (Sample.env [("1", "a2"); ("2", "a3"); ("3", "a1")]) "db" "/a" "" true
    "application/json"
  = ([OpenFile "db"; CloseFile "db"; OpenFile "db"; CloseFile "db"; WriteOut ("xyz" +:+ nl)],
     Done tt).
Proof. vm_compute. reflexivity. Qed.

(** A file without the key bucket. *)
Example no_bucket :
  listVersions
    {| bolt_Open := λ _, Ok {| bolt.Bucket := λ _, None |};
       readInput := readInput (Sample.env []);
       Unmarshal := Sample.decode;
       encoding_ToMediaType := encoding_ToMediaType (Sample.env []);
       encoding_JsonMediaType := "application/json";
       encoding_DetectAndExtract := encoding_DetectAndExtract (Sample.env []);
       encoding_Convert := encoding_Convert (Sample.env []);
       json_Unmarshal := json_Unmarshal (Sample.env []);
       json_Marshal := json_Marshal (Sample.env []);
       strconv_ParseInt := Sample.parseInt;
       strings_TrimSpace := λ s, s;
       template_Parse := λ _, Ok tt;
       template_Execute := template_Execute (Sample.env []) |} "db" "/a"
  = ([OpenFile "db"; CloseFile "db"], Panicked).
Proof. reflexivity. Qed.

(** * Further properties of the code *)

(** ** The walk: early stop and full pass *)

(** X1. [walk], lines 443-449: when the visitor answers done at a record the
    walk reaches, the walk returns nil there with the state the visitor left;
    the items after that record are not decoded and not visited. *)
Theorem walk_stops_when_done {S} (E : Env) (f : visitor S)
    filename db pre kvs k v post kv s s1 s2 :
  bolt_Open E filename = Ok db →
  bolt.Bucket db keyBucket = Some (pre ++ (k, v) :: post) →
  decode_items E pre = Ok kvs →
  visit_all f kvs s = Some s1 →
  Unmarshal E v = Ok kv →
  f s1 kv = (s2, Ok true) →
  walk E filename f s = (walked filename, (s2, Done tt)).
Proof.
  intros Hopen Hbucket Hpre Hvis Hkv Hf.
  rewrite (walk_open E f filename db _ s Hopen Hbucket).
  rewrite (walk_items_app E f pre kvs _ s s1 Hpre Hvis).
  simpl. by rewrite Hkv, Hf.
Qed.

Lemma walk_stops_when_done_witness :
  walk (Sample.env [("1", "a1"); ("2", "b1"); ("3", "garbage")]) "db"
    (getValue_visit "/b" 1) ("", false)
  = (walked "db", (("q", true), Done tt)).
Proof.
  apply (walk_stops_when_done
           (Sample.env [("1", "a1"); ("2", "b1"); ("3", "garbage")]) (getValue_visit "/b" 1)
           "db" (Sample.db [("1", "a1"); ("2", "b1"); ("3", "garbage")])
           [("1", "a1")] [Sample.kv "/a" 1 "x"] "2" "b1" [("3", "garbage")]
           (Sample.kv "/b" 1 "q") ("", false) ("", false) ("q", true)); reflexivity.
Defined.

(** X2. [walk], lines 437-451: when every item decodes and the visitor never
    asks to stop, the visitor has seen every record, in cursor order, and the
    walk returns nil. *)
Theorem walk_visits_every_record {S} (E : Env) (f : visitor S) filename db items kvs s s' :
  bolt_Open E filename = Ok db →
  bolt.Bucket db keyBucket = Some items →
  decode_items E items = Ok kvs →
  visit_all f kvs s = Some s' →
  walk E filename f s = (walked filename, (s', Done tt)).
Proof.
  intros Hopen Hbucket Hdec Hvis.
  rewrite (walk_open E f filename db _ s Hopen Hbucket).
  rewrite <-(app_nil_r items).
  by rewrite (walk_items_app E f items kvs [] s s' Hdec Hvis).
Qed.

Lemma walk_visits_every_record_witness :
  walk (Sample.env [("1", "a2"); ("2", "b1"); ("3", "a1")]) "db" (listVersions_visit "/a") []
  = (walked "db", ([2; 1], Done tt)).
Proof.
  apply (walk_visits_every_record
           (Sample.env [("1", "a2"); ("2", "b1"); ("3", "a1")]) (listVersions_visit "/a")
           "db" (Sample.db [("1", "a2"); ("2", "b1"); ("3", "a1")])
           [("1", "a2"); ("2", "b1"); ("3", "a1")]
           [Sample.kv "/a" 2 "xy"; Sample.kv "/b" 1 "q"; Sample.kv "/a" 1 "x"]
           [] [2; 1]); reflexivity.
Defined.

(** ** The version resolver *)

(** X3. [listVersions]: over a store that opens and decodes, the result is the
    versions of the records of the key, in the order of the walk; a key
    without records gives the empty list, not an error. *)
Theorem listVersions_in_walk_order (E : Env) filename key db items kvs :
  bolt_Open E filename = Ok db →
  bolt.Bucket db keyBucket = Some items →
  decode_items E items = Ok kvs →
  listVersions E filename key =
    (walked filename, Done (mvccpb.Version <$> filter (λ kv, mvccpb.Key kv = key) kvs)).
Proof. intros Hopen Hbucket Hdec. by rewrite listVersions_cases, Hopen, Hbucket, Hdec. Qed.

Lemma listVersions_in_walk_order_witness :
  listVersions (Sample.env [("1", "a3"); ("2", "b1"); ("3", "a1")]) "db" "/a"
    = (walked "db", Done [3; 1]) ∧
  listVersions (Sample.env [("1", "a3"); ("2", "b1"); ("3", "a1")]) "db" "/zz"
    = (walked "db", Done []).
Proof.
  split.
  - apply (listVersions_in_walk_order
             (Sample.env [("1", "a3"); ("2", "b1"); ("3", "a1")]) "db" "/a"
             (Sample.db [("1", "a3"); ("2", "b1"); ("3", "a1")])
             [("1", "a3"); ("2", "b1"); ("3", "a1")]
             [Sample.kv "/a" 3 "xyz"; Sample.kv "/b" 1 "q"; Sample.kv "/a" 1 "x"]);
      reflexivity.
  - apply (listVersions_in_walk_order
             (Sample.env [("1", "a3"); ("2", "b1"); ("3", "a1")]) "db" "/zz"
             (Sample.db [("1", "a3"); ("2", "b1"); ("3", "a1")])
             [("1", "a3"); ("2", "b1"); ("3", "a1")]
             [Sample.kv "/a" 3 "xyz"; Sample.kv "/b" 1 "q"; Sample.kv "/a" 1 "x"]);
      reflexivity.
Defined.

(** X4. [getValue], lines 409-416 and 423: the value returned is that of the
    first record with the key and the version; the walk stops there, so the
    items after it need not even decode. *)
Theorem getValue_returns_first_match (E : Env)
    filename key version db ipre ik iv ipost pre kv :
  bolt_Open E filename = Ok db →
  bolt.Bucket db keyBucket = Some (ipre ++ (ik, iv) :: ipost) →
  decode_items E ipre = Ok pre →
  Unmarshal E iv = Ok kv →
  Forall (λ kv', ¬ matches key version kv') pre →
  matches key version kv →
  getValue E filename key version = (walked filename, Done (mvccpb.Value kv)).
Proof.
  intros Hopen Hbucket Hpre Hkv Hskip [Hk Hv].
  apply (getValue_first_match E filename key version db ipre ik iv ipost pre kv);
    try done.
  rewrite Forall_forall in Hskip. exact Hskip.
Qed.

Lemma getValue_returns_first_match_witness :
  getValue (Sample.env [("1", "a1"); ("2", "a2"); ("3", "garbage")]) "db" "/a" 2
    = (walked "db", Done "xy").
Proof.
  apply (getValue_returns_first_match
           (Sample.env [("1", "a1"); ("2", "a2"); ("3", "garbage")]) "db" "/a" 2
           (Sample.db [("1", "a1"); ("2", "a2"); ("3", "garbage")])
           [("1", "a1")] "2" "a2" [("3", "garbage")] [Sample.kv "/a" 1 "x"]
           (Sample.kv "/a" 2 "xy")); try reflexivity.
  - constructor; [|constructor]. intros [_ Hv]. discriminate.
  - split; reflexivity.
Defined.

(** X5. [getValue], lines 420-422: over a store that opens and decodes, when no
    record has both the key and the version, the result is the error
    "key not found: <key>". *)
Theorem getValue_not_found (E : Env) filename key version db items kvs :
  bolt_Open E filename = Ok db →
  bolt.Bucket db keyBucket = Some items →
  decode_items E items = Ok kvs →
  Forall (λ kv, ¬ matches key version kv) kvs →
  getValue E filename key version =
    (walked filename, Failed (Errorf ("key not found: " +:+ key))).
Proof.
  intros Hopen Hbucket Hdec Hnone. unfold getValue.
  rewrite (walk_open E _ filename db _ _ Hopen Hbucket).
  rewrite <-(app_nil_r items).
  rewrite (walk_items_app E _ items kvs [] _ ("", false) Hdec).
  - reflexivity.
  - apply getValue_visit_skip. rewrite Forall_forall in Hnone. exact Hnone.
Qed.

Lemma getValue_not_found_witness :
  getValue (Sample.env [("1", "a1"); ("2", "b1")]) "db" "/a" 2
    = (walked "db", Failed (Errorf "key not found: /a")).
Proof.
  apply (getValue_not_found
           (Sample.env [("1", "a1"); ("2", "b1")]) "db" "/a" 2
           (Sample.db [("1", "a1"); ("2", "b1")]) [("1", "a1"); ("2", "b1")]
           [Sample.kv "/a" 1 "x"; Sample.kv "/b" 1 "q"]); try reflexivity.
  repeat constructor; intros [Hk Hv]; discriminate.
Defined.

(** X6. [maxInSlice]: the result is never negative, no element of the slice
    exceeds it, and it is 0 or an element of the slice; so it is the maximum
    of the slice exactly when that maximum is not negative. *)
Theorem maxInSlice_bounds (s : list Z) :
  0 ≤ maxInSlice s ∧
  (∀ e, e ∈ s → e ≤ maxInSlice s) ∧
  (maxInSlice s = 0 ∨ maxInSlice s ∈ s).
Proof. exact (running_max s 0). Qed.

(** X7. [maxInSlice] does not depend on the order of the slice. *)
Theorem maxInSlice_order (s1 s2 : list Z) :
  s1 ≡ₚ s2 → maxInSlice s1 = maxInSlice s2.
Proof.
  intros Hperm. unfold maxInSlice.
  destruct (running_max s1 0) as (Hle1 & Hall1 & Hin1).
  destruct (running_max s2 0) as (Hle2 & Hall2 & Hin2). simpl in *.
  assert (fold_left (λ r e, if e >? r then e else r) s1 0
          ≤ fold_left (λ r e, if e >? r then e else r) s2 0).
  { destruct Hin1 as [Heq|Hin]; [by rewrite Heq|]. apply Hall2. by rewrite <-Hperm. }
  assert (fold_left (λ r e, if e >? r then e else r) s2 0
          ≤ fold_left (λ r e, if e >? r then e else r) s1 0); [|lia].
  destruct Hin2 as [Heq|Hin]; [by rewrite Heq|]. apply Hall1. by rewrite Hperm.
Qed.

Lemma maxInSlice_order_witness : maxInSlice [3; -1; 7; 2] = maxInSlice [2; 7; 3; -1].
Proof.
  apply maxInSlice_order.
  etrans; [apply (Permutation_cons_append [-1; 7; 2] 3)|]. simpl.
  etrans; [apply (Permutation_cons_append [7; 2; 3] (-1))|]. simpl.
  apply Permutation_swap.
Defined.

(** ** The aggregator: what a summary holds *)

Section SummaryFacts.
Variable E : Env.

Lemma fold_update_latest l ks seen :
  (∃ r, r ∈ seen ∧ mvccpb.Version r = KeySummary.Version ks ∧
        KeySummaryStats.ValueSize (KeySummary.Stats ks) = len (mvccpb.Value r)) →
  ∃ r, r ∈ seen ++ l ∧
       mvccpb.Version r = KeySummary.Version (fold_left updateKeySummary l ks) ∧
       KeySummaryStats.ValueSize (KeySummary.Stats (fold_left updateKeySummary l ks))
         = len (mvccpb.Value r).
Proof.
  revert ks seen. induction l as [|kv l IH]; intros ks seen (r & Hr & Hv & Hsz); simpl.
  - exists r. by rewrite app_nil_r.
  - replace (seen ++ kv :: l) with ((seen ++ [kv]) ++ l) by (by rewrite <-app_assoc).
    apply IH. unfold updateKeySummary. simpl.
    destruct (mvccpb.Version kv >? KeySummary.Version ks).
    + exists kv. split; [|done]. apply elem_of_app. right. by left.
    + exists r. split; [|done]. apply elem_of_app. by left.
Qed.

Lemma wrap_int_small z : - 2 ^ 63 ≤ z < 2 ^ 63 → wrap_int z = z.
Proof. intros Hz. unfold wrap_int. rewrite Z.mod_small; lia. Qed.

Lemma len_nonneg s : 0 ≤ len s.
Proof. unfold len. lia. Qed.

Lemma total_len_nonneg f l : 0 ≤ total_len f l.
Proof.
  induction l as [|r l IH]; simpl; [done|]. pose proof (len_nonneg (f r)). lia.
Qed.

Lemma fold_update_counts l ks :
  0 ≤ KeySummaryStats.VersionCount (KeySummary.Stats ks) →
  0 ≤ KeySummaryStats.AllVersionsKeySize (KeySummary.Stats ks) →
  0 ≤ KeySummaryStats.AllVersionsValueSize (KeySummary.Stats ks) →
  KeySummaryStats.VersionCount (KeySummary.Stats ks) + Z.of_nat (length l) < 2 ^ 63 →
  KeySummaryStats.AllVersionsKeySize (KeySummary.Stats ks) + total_len mvccpb.Key l < 2 ^ 63 →
  KeySummaryStats.AllVersionsValueSize (KeySummary.Stats ks) + total_len mvccpb.Value l
    < 2 ^ 63 →
  let st := KeySummary.Stats (fold_left updateKeySummary l ks) in
  KeySummaryStats.VersionCount st
    = KeySummaryStats.VersionCount (KeySummary.Stats ks) + Z.of_nat (length l) ∧
  KeySummaryStats.AllVersionsKeySize st
    = KeySummaryStats.AllVersionsKeySize (KeySummary.Stats ks) + total_len mvccpb.Key l ∧
  KeySummaryStats.AllVersionsValueSize st
    = KeySummaryStats.AllVersionsValueSize (KeySummary.Stats ks) + total_len mvccpb.Value l ∧
  KeySummaryStats.KeySize st = KeySummaryStats.KeySize (KeySummary.Stats ks).
Proof.
  revert ks. induction l as [|kv l IH]; intros ks Hc Hk Hv Hcb Hkb Hvb; simpl in *.
  - lia.
  - pose proof (len_nonneg (mvccpb.Key kv)). pose proof (len_nonneg (mvccpb.Value kv)).
    pose proof (total_len_nonneg mvccpb.Key l). pose proof (total_len_nonneg mvccpb.Value l).
    destruct (IH (updateKeySummary ks kv)) as (-> & -> & -> & ->); simpl;
      rewrite ?wrap_int_small by lia; lia.
Qed.

Lemma total_len_same_key k l :
  Forall (λ r, mvccpb.Key r = k) l → total_len mvccpb.Key l = Z.of_nat (length l) * len k.
Proof. induction 1 as [|r l Hr _ IH]; simpl; [done|]. rewrite IH, Hr. lia. Qed.

Lemma records_of_same_key k kvs : Forall (λ r, mvccpb.Key r = k) (records_of k kvs).
Proof. apply Forall_forall. unfold records_of. by intros r [? _]%list_elem_of_filter. Qed.

(** The summary of a key with records is in the list returned. *)
Lemma listKeySummaries_summary_of filename prefix db items kvs k first rest :
  bolt_Open E filename = Ok db →
  bolt.Bucket db keyBucket = Some items →
  decode_items E items = Ok kvs →
  bytes_HasPrefix k prefix = true →
  records_of k kvs = first :: rest →
  listKeySummaries E filename prefix
    = (walked filename, Done (getSortedKeySummaries (aggregate E prefix kvs))) ∧
  fold_left updateKeySummary rest (newKeySummary E first)
    ∈ getSortedKeySummaries (aggregate E prefix kvs) ∧
  KeySummary.Key (fold_left updateKeySummary rest (newKeySummary E first)) = k.
Proof.
  intros Hopen Hbucket Hdec Hp Hrec.
  rewrite listKeySummaries_cases, Hopen, Hbucket, Hdec. split; [done|].
  pose proof (aggregate_lookup_records E prefix kvs k _ _ Hp Hrec) as Hks.
  pose proof (aggregate_keyed E _ _ _ _ Hks) as Hkey. split; [|done].
  apply elem_of_getSortedKeySummaries; [apply aggregate_keyed|]. by rewrite Hkey.
Qed.
End SummaryFacts.

(** X8. [listKeySummaries], lines 355-373: for a key with any number of records,
    in any order and with any int64 versions, the summary's [Version] is the
    greatest version among them, and [Stats.ValueSize] is the length of the
    value of a record that carries that version. *)
Theorem summary_tracks_latest (E : Env) filename prefix db items kvs k first rest :
  bolt_Open E filename = Ok db →
  bolt.Bucket db keyBucket = Some items →
  decode_items E items = Ok kvs →
  bytes_HasPrefix k prefix = true →
  records_of k kvs = first :: rest →
  ∃ l ks,
    listKeySummaries E filename prefix = (walked filename, Done l) ∧
    ks ∈ l ∧ KeySummary.Key ks = k ∧
    (∀ r, r ∈ first :: rest → mvccpb.Version r ≤ KeySummary.Version ks) ∧
    (∃ r, r ∈ first :: rest ∧ mvccpb.Version r = KeySummary.Version ks ∧
          KeySummaryStats.ValueSize (KeySummary.Stats ks) = len (mvccpb.Value r)).
Proof.
  intros Hopen Hbucket Hdec Hp Hrec.
  destruct (listKeySummaries_summary_of E filename prefix db items kvs k first rest
              Hopen Hbucket Hdec Hp Hrec) as (Hl & Hin & Hk).
  eexists _, _. split; [exact Hl|]. split; [exact Hin|]. split; [exact Hk|]. split.
  - intros r Hr. rewrite fold_update_Version, newKeySummary_Version.
    destruct (running_max (mvccpb.Version <$> rest) (mvccpb.Version first))
      as (Hle & Hall & _). simpl in Hle, Hall.
    apply elem_of_cons in Hr as [->|Hr]; [done|].
    apply Hall. by apply list_elem_of_fmap_2.
  - apply (fold_update_latest rest (newKeySummary E first) [first]).
    exists first. split; [by left|].
    by rewrite newKeySummary_Version, newKeySummary_Stats.
Qed.

Lemma summary_tracks_latest_witness :
  ∃ l ks,
    listKeySummaries (Sample.env [("1", "n2"); ("2", "b1"); ("3", "n1"); ("4", "n3")]) "db" "/n"
      = (walked "db", Done l) ∧
    ks ∈ l ∧ KeySummary.Key ks = "/n" ∧
    (∀ r, r ∈ [Sample.kv "/n" (-2) "v"; Sample.kv "/n" (-1) "u"; Sample.kv "/n" (-3) "w"] →
          mvccpb.Version r ≤ KeySummary.Version ks) ∧
    (∃ r, r ∈ [Sample.kv "/n" (-2) "v"; Sample.kv "/n" (-1) "u"; Sample.kv "/n" (-3) "w"] ∧
          mvccpb.Version r = KeySummary.Version ks ∧
          KeySummaryStats.ValueSize (KeySummary.Stats ks) = len (mvccpb.Value r)).
Proof.
  apply (summary_tracks_latest
           (Sample.env [("1", "n2"); ("2", "b1"); ("3", "n1"); ("4", "n3")]) "db" "/n"
           (Sample.db [("1", "n2"); ("2", "b1"); ("3", "n1"); ("4", "n3")])
           [("1", "n2"); ("2", "b1"); ("3", "n1"); ("4", "n3")]
           [Sample.kv "/n" (-2) "v"; Sample.kv "/b" 1 "q"; Sample.kv "/n" (-1) "u";
            Sample.kv "/n" (-3) "w"]
           "/n"); reflexivity.
Defined.

(** X9. [listKeySummaries], lines 358-376: as long as the totals fit in an int,
    [VersionCount] is the number of records of the key, [KeySize] the length
    of the key, [AllVersionsKeySize] that length once per record, and
    [AllVersionsValueSize] the sum of the lengths of the values of all its
    records. *)
Theorem summary_counts (E : Env) filename prefix db items kvs k first rest :
  bolt_Open E filename = Ok db →
  bolt.Bucket db keyBucket = Some items →
  decode_items E items = Ok kvs →
  bytes_HasPrefix k prefix = true →
  records_of k kvs = first :: rest →
  Z.of_nat (length (first :: rest)) * len k < 2 ^ 63 →
  Z.of_nat (length (first :: rest)) < 2 ^ 63 →
  total_len mvccpb.Value (first :: rest) < 2 ^ 63 →
  ∃ l ks,
    listKeySummaries E filename prefix = (walked filename, Done l) ∧
    ks ∈ l ∧ KeySummary.Key ks = k ∧
    KeySummaryStats.VersionCount (KeySummary.Stats ks) = Z.of_nat (length (first :: rest)) ∧
    KeySummaryStats.KeySize (KeySummary.Stats ks) = len k ∧
    KeySummaryStats.AllVersionsKeySize (KeySummary.Stats ks)
      = Z.of_nat (length (first :: rest)) * len k ∧
    KeySummaryStats.AllVersionsValueSize (KeySummary.Stats ks)
      = total_len mvccpb.Value (first :: rest).
Proof.
  intros Hopen Hbucket Hdec Hp Hrec Hkb Hcb Hvb.
  destruct (listKeySummaries_summary_of E filename prefix db items kvs k first rest
              Hopen Hbucket Hdec Hp Hrec) as (Hl & Hin & Hk).
  pose proof (records_of_same_key k kvs) as Hsame. rewrite Hrec in Hsame.
  pose proof (total_len_same_key k _ Hsame) as Hkeys.
  apply Forall_cons in Hsame as [Hfirst Hrest].
  pose proof (total_len_same_key k _ Hrest) as Hkeys'.
  pose proof (len_nonneg k). pose proof (len_nonneg (mvccpb.Value first)).
  simpl in Hkeys, Hkb, Hcb, Hvb. rewrite Hfirst in Hkeys.
  destruct (fold_update_counts rest (newKeySummary E first)) as (Hc & Hak & Hav & Hks);
    rewrite ?newKeySummary_Stats; simpl; rewrite ?Hfirst; try lia.
  rewrite newKeySummary_Stats in Hc, Hak, Hav, Hks. simpl in Hc, Hak, Hav, Hks.
  eexists _, _. split; [exact Hl|]. split; [exact Hin|]. split; [exact Hk|].
  simpl. rewrite Hc, Hak, Hav, Hks, Hfirst. split_and!; lia.
Qed.

Lemma summary_counts_witness :
  ∃ l ks,
    listKeySummaries (Sample.env [("1", "a2"); ("2", "b1"); ("3", "a1"); ("4", "a3")]) "db" ""
      = (walked "db", Done l) ∧
    ks ∈ l ∧ KeySummary.Key ks = "/a" ∧
    KeySummaryStats.VersionCount (KeySummary.Stats ks) = 3 ∧
    KeySummaryStats.KeySize (KeySummary.Stats ks) = 2 ∧
    KeySummaryStats.AllVersionsKeySize (KeySummary.Stats ks) = 6 ∧
    KeySummaryStats.AllVersionsValueSize (KeySummary.Stats ks) = 6.
Proof.
  apply (summary_counts
           (Sample.env [("1", "a2"); ("2", "b1"); ("3", "a1"); ("4", "a3")]) "db" ""
           (Sample.db [("1", "a2"); ("2", "b1"); ("3", "a1"); ("4", "a3")])
           [("1", "a2"); ("2", "b1"); ("3", "a1"); ("4", "a3")]
           [Sample.kv "/a" 2 "xy"; Sample.kv "/b" 1 "q"; Sample.kv "/a" 1 "x";
            Sample.kv "/a" 3 "xyz"]
           "/a" (Sample.kv "/a" 2 "xy") [Sample.kv "/a" 1 "x"; Sample.kv "/a" 3 "xyz"]);
    reflexivity.
Defined.

(** X10. [listKeySummaries], lines 345 and 385: over a store that opens and
    decodes, a list is returned whatever the values are (a value that does
    not convert does not stop the walk), and its keys are the keys of the
    store that start with the prefix. *)
Theorem listKeySummaries_keys_with_prefix (E : Env) filename prefix db items kvs :
  bolt_Open E filename = Ok db →
  bolt.Bucket db keyBucket = Some items →
  decode_items E items = Ok kvs →
  ∃ l, listKeySummaries E filename prefix = (walked filename, Done l) ∧
       ∀ k, k ∈ KeySummary.Key <$> l ↔
            bytes_HasPrefix k prefix = true ∧ k ∈ mvccpb.Key <$> kvs.
Proof.
  intros Hopen Hbucket Hdec.
  rewrite listKeySummaries_cases, Hopen, Hbucket, Hdec.
  eexists. split; [done|]. intros k.
  rewrite getSortedKeySummaries_perm, elem_of_keys_values by apply aggregate_keyed.
  apply aggregate_dom.
Qed.

Lemma listKeySummaries_keys_with_prefix_witness :
  ∃ l, listKeySummaries (Sample.env [("1", "b1"); ("2", "c7"); ("3", "a1")]) "db" "/a"
         = (walked "db", Done l) ∧
       ∀ k, k ∈ KeySummary.Key <$> l ↔
            bytes_HasPrefix k "/a" = true ∧
            k ∈ mvccpb.Key <$> [Sample.kv "/b" 1 "q"; Sample.kv "/a/c" 7 ""; Sample.kv "/a" 1 "x"].
Proof.
  apply (listKeySummaries_keys_with_prefix
           (Sample.env [("1", "b1"); ("2", "c7"); ("3", "a1")]) "db" "/a"
           (Sample.db [("1", "b1"); ("2", "c7"); ("3", "a1")])
           [("1", "b1"); ("2", "c7"); ("3", "a1")]); reflexivity.
Defined.

(** X11. [getSortedKeySummaries], lines 471-477: the map is ranged over in an
    order that changes from run to run; for summaries with distinct keys
    the sorted result is the same for every such order. *)
Theorem getSortedKeySummaries_order_independent (order1 order2 : list KeySummary.t) :
  NoDup (KeySummary.Key <$> order1) →
  order1 ≡ₚ order2 →
  getSortedKeySummaries_from order1 = getSortedKeySummaries_from order2.
Proof. apply getSortedKeySummaries_from_order. Qed.

Lemma getSortedKeySummaries_order_independent_witness :
  getSortedKeySummaries_from
    [newKeySummary (Sample.env []) (Sample.kv "/b" 1 "q");
     newKeySummary (Sample.env []) (Sample.kv "/a" 1 "x")]
  = getSortedKeySummaries_from
    [newKeySummary (Sample.env []) (Sample.kv "/a" 1 "x");
     newKeySummary (Sample.env []) (Sample.kv "/b" 1 "q")].
Proof.
  apply getSortedKeySummaries_order_independent.
  - vm_compute. repeat constructor; intros H;
      repeat (apply elem_of_cons in H as [H|H]; [discriminate|]); by apply elem_of_nil in H.
  - apply Permutation_swap.
Defined.

(** ** What the printing functions write *)

Section Writing.
Variable E : Env.

Lemma bind_Done {A B} t (a : A) (k : A → M B) :
  (t, Done a) >>! k = (t ++ (k a).1, (k a).2).
Proof. unfold bind. by destruct (k a). Qed.

Lemma len_zero s : len s = 0 ↔ s = "".
Proof. unfold len. destruct s; simpl; split; intros; (done || lia). Qed.

Lemma printVersions_loop_writes versions :
  printVersions_loop versions = (writes (λ v, pretty v +:+ nl) versions, Done tt).
Proof.
  induction versions as [|v versions IH]; [done|].
  cbn [printVersions_loop]. unfold Fprintf. by rewrite bind_Done, IH.
Qed.

Lemma summarize_known s fields :
  Forall (λ field, field ∈ SummaryFields) fields →
  summarize E s fields = Ok (summary_line E fields s).
Proof.
  intros Hfields. unfold summary_line, summarize.
  assert (∃ vs, summarize_values E s fields = Ok vs) as [vs ->]; [|done].
  induction Hfields as [|field fields Hfield _ [vs IH]]; simpl; [by eexists|].
  destruct (summarize_field_known E s field Hfield) as [v ->]. rewrite IH. by eexists.
Qed.

Lemma printKeySummaries_loop_writes fields l :
  Forall (λ field, field ∈ SummaryFields) fields →
  printKeySummaries_loop E fields l =
    (writes (λ s, summary_line E fields s +:+ nl) l, Done tt).
Proof.
  intros Hfields. induction l as [|s l IH]; [done|].
  cbn [printKeySummaries_loop].
  rewrite (summarize_known s fields Hfields). unfold Fprintf. by rewrite bind_Done, IH.
Qed.

Lemma templateSummaries_loop_renders templatestr l :
  Forall (λ s, (template_Execute E templatestr s).2 = Ok tt) l →
  templateSummaries_loop E templatestr l = (rendered E templatestr l, Done tt).
Proof.
  induction 1 as [|s l Hs _ IH]; [done|].
  cbn [templateSummaries_loop rendered foldr].
  destruct (template_Execute E templatestr s) as [w r]. simpl in Hs. subst r.
  unfold Fprintf. by rewrite !bind_Done, IH.
Qed.

Lemma templateSummaries_loop_breaks templatestr good s rest w err :
  Forall (λ s, (template_Execute E templatestr s).2 = Ok tt) good →
  template_Execute E templatestr s = (w, Err err) →
  templateSummaries_loop E templatestr (good ++ s :: rest) =
    (rendered E templatestr good ++ [WriteOut w], Failed err).
Proof.
  intros Hgood Hs. induction Hgood as [|g good Hg _ IH].
  - simpl. by rewrite Hs.
  - cbn [templateSummaries_loop rendered foldr app].
    destruct (template_Execute E templatestr g) as [wg r]. simpl in Hg. subst r.
    unfold Fprintf. by rewrite !bind_Done, IH.
Qed.

Lemma getValue_no_match filename key version db items kvs :
  bolt_Open E filename = Ok db →
  bolt.Bucket db keyBucket = Some items →
  decode_items E items = Ok kvs →
  Forall (λ kv, ¬ matches key version kv) kvs →
  getValue E filename key version =
    (walked filename, Failed (Errorf ("key not found: " +:+ key))).
Proof.
  intros Hopen Hbucket Hdec Hnone. unfold getValue.
  rewrite (walk_open E _ filename db _ _ Hopen Hbucket).
  rewrite <-(app_nil_r items).
  rewrite (walk_items_app E _ items kvs [] _ ("", false) Hdec).
  - reflexivity.
  - apply getValue_visit_skip. rewrite Forall_forall in Hnone. exact Hnone.
Qed.

(** [getValue] at the first match found by position. *)
Lemma getValue_found filename key version db items kvs i kv :
  bolt_Open E filename = Ok db →
  bolt.Bucket db keyBucket = Some items →
  decode_items E items = Ok kvs →
  list_find (matches key version) kvs = Some (i, kv) →
  getValue E filename key version = (walked filename, Done (mvccpb.Value kv)).
Proof.
  intros Hopen Hbucket Hdec Hfind.
  apply list_find_Some in Hfind as (Hi & [Hk Hv] & Hbefore).
  destruct (decode_items_lookup E items kvs i kv Hdec Hi)
    as (ipre & ik & iv & ipost & -> & Hpre & Hkv).
  apply (getValue_first_match E filename key version db ipre ik iv ipost (take i kvs) kv);
    try done.
  intros kv' Hin. apply list_elem_of_lookup in Hin as [j Hj].
  pose proof (lookup_lt_Some _ _ _ Hj) as Hlt. rewrite length_take in Hlt.
  rewrite lookup_take_lt in Hj by lia. apply (Hbefore j); [done|lia].
Qed.
End Writing.

(** X12. [printVersions]: over a store that opens and decodes, one line per
    record of the key is written, holding its version in decimal, in the
    order of the walk (not sorted); a key without records writes nothing and
    gives no error. *)
Theorem printVersions_lines (E : Env) filename key db items kvs :
  bolt_Open E filename = Ok db →
  bolt.Bucket db keyBucket = Some items →
  decode_items E items = Ok kvs →
  printVersions E filename key =
    (walked filename ++
       writes (λ v, pretty v +:+ nl)
         (mvccpb.Version <$> filter (λ kv, mvccpb.Key kv = key) kvs),
     Done tt).
Proof.
  intros Hopen Hbucket Hdec. unfold printVersions.
  rewrite listVersions_cases, Hopen, Hbucket, Hdec.
  by rewrite bind_Done, printVersions_loop_writes.
Qed.

Lemma printVersions_lines_witness :
  printVersions (Sample.env [("1", "a3"); ("2", "b1"); ("3", "a1")]) "db" "/a"
    = ([OpenFile "db"; CloseFile "db"; WriteOut ("3" +:+ nl); WriteOut ("1" +:+ nl)], Done tt).
Proof.
  apply (printVersions_lines
           (Sample.env [("1", "a3"); ("2", "b1"); ("3", "a1")]) "db" "/a"
           (Sample.db [("1", "a3"); ("2", "b1"); ("3", "a1")])
           [("1", "a3"); ("2", "b1"); ("3", "a1")]
           [Sample.kv "/a" 3 "xyz"; Sample.kv "/b" 1 "q"; Sample.kv "/a" 1 "x"]);
    reflexivity.
Defined.

(** X13. [printValue], lines 197-204: with no version given and no record of the
    key in a store that opens and decodes, the result is the error
    "No versions found for key: <key>" after one walk, and nothing is
    written. *)
Theorem printValue_no_versions (E : Env) filename key raw outMediaType db items kvs :
  bolt_Open E filename = Ok db →
  bolt.Bucket db keyBucket = Some items →
  decode_items E items = Ok kvs →
  Forall (λ kv, mvccpb.Key kv ≠ key) kvs →
  printValue E filename key "" raw outMediaType =
    (walked filename, Failed (Errorf ("No versions found for key: " +:+ key))).
Proof.
  intros Hopen Hbucket Hdec Hnone. unfold printValue.
  rewrite decide_True by done.
  rewrite listVersions_cases, Hopen, Hbucket, Hdec.
  assert (records_of key kvs = []) as ->.
  { unfold records_of. clear Hdec. induction Hnone as [|kv kvs Hkv _ IH]; [done|].
    by rewrite filter_cons_False. }
  reflexivity.
Qed.

Lemma printValue_no_versions_witness :
  printValue (Sample.env [("1", "a1"); ("2", "b1")]) "db" "/zz" "" true "application/json"
    = (walked "db", Failed (Errorf "No versions found for key: /zz")).
Proof.
  apply (printValue_no_versions
           (Sample.env [("1", "a1"); ("2", "b1")]) "db" "/zz" true "application/json"
           (Sample.db [("1", "a1"); ("2", "b1")]) [("1", "a1"); ("2", "b1")]
           [Sample.kv "/a" 1 "x"; Sample.kv "/b" 1 "q"]); try reflexivity.
  repeat constructor; discriminate.
Defined.

(** X14. [printValue], lines 207-211: a version that is given and does not parse
    as an int64 is rejected with "version must be an int64, but got ..."
    before the file is opened. *)
Theorem printValue_bad_version (E : Env) filename key version raw outMediaType err :
  version ≠ "" →
  strconv_ParseInt E version = Err err →
  printValue E filename key version raw outMediaType =
    ([], Failed (Errorf ("version must be an int64, but got " +:+ version +:+ ": "
                         +:+ Error err))).
Proof.
  intros Hne Hparse. unfold printValue. by rewrite decide_False, Hparse.
Qed.

Lemma printValue_bad_version_witness :
  printValue (Sample.env [("1", "a1")]) "db" "/a" "one" true "application/json"
    = ([], Failed (Errorf "version must be an int64, but got one: invalid syntax")).
Proof.
  apply (printValue_bad_version (Sample.env [("1", "a1")]) "db" "/a" "one" true
           "application/json" (LibError "strconv" "invalid syntax")).
  - discriminate.
  - reflexivity.
Defined.

(** X15. [printValue] with a version given, lines 213-216: when no record of the
    store has the key with that version, the result is the error
    "key not found: <key>" after one walk, and nothing is written. *)
Theorem printValue_version_not_found (E : Env)
    filename key version raw outMediaType db items kvs v :
  bolt_Open E filename = Ok db →
  bolt.Bucket db keyBucket = Some items →
  decode_items E items = Ok kvs →
  version ≠ "" →
  strconv_ParseInt E version = Ok v →
  Forall (λ kv, ¬ matches key v kv) kvs →
  printValue E filename key version raw outMediaType =
    (walked filename, Failed (Errorf ("key not found: " +:+ key))).
Proof.
  intros Hopen Hbucket Hdec Hne Hparse Hnone. unfold printValue.
  rewrite decide_False by done. rewrite Hparse. unfold ret. rewrite bind_Done.
  by rewrite (getValue_no_match E filename key v db items kvs Hopen Hbucket Hdec Hnone).
Qed.

Lemma printValue_version_not_found_witness :
  printValue (Sample.env [("1", "a1"); ("2", "b1")]) "db" "/a" "2" true "application/json"
    = (walked "db", Failed (Errorf "key not found: /a")).
Proof.
  apply (printValue_version_not_found
           (Sample.env [("1", "a1"); ("2", "b1")]) "db" "/a" "2" true "application/json"
           (Sample.db [("1", "a1"); ("2", "b1")]) [("1", "a1"); ("2", "b1")]
           [Sample.kv "/a" 1 "x"; Sample.kv "/b" 1 "q"] 2); try reflexivity.
  - discriminate.
  - repeat constructor; intros [Hk Hv]; discriminate.
Defined.

(** X16. [printValue], lines 213-225: when the first record with the key and the
    resolved version (the given one, or [maxInSlice] of the key's versions)
    has a non-empty value, that value is what is printed: with --raw the
    bytes themselves and a newline, otherwise what [convert] writes, with
    [convert]'s error if it fails.  The file is walked twice when the
    version had to be resolved, once when it was given. *)
Theorem printValue_prints_first_match (E : Env)
    filename key version raw outMediaType db items kvs v i kv :
  bolt_Open E filename = Ok db →
  bolt.Bucket db keyBucket = Some items →
  decode_items E items = Ok kvs →
  (version = "" ∧ v = maxInSlice (mvccpb.Version <$> records_of key kvs)
   ∨ version ≠ "" ∧ strconv_ParseInt E version = Ok v) →
  list_find (matches key v) kvs = Some (i, kv) →
  mvccpb.Value kv ≠ "" →
  printValue E filename key version raw outMediaType =
    ((if decide (version = "") then walked filename else []) ++ walked filename ++
       [WriteOut (if raw then mvccpb.Value kv +:+ nl
                  else (convert E outMediaType (mvccpb.Value kv)).1)],
     if raw then Done tt
     else match (convert E outMediaType (mvccpb.Value kv)).2 with
          | Ok _ => Done tt
          | Err err => Failed err
          end).
Proof.
  intros Hopen Hbucket Hdec Hres Hfind Hval.
  pose proof (getValue_found E filename key v db items kvs i kv Hopen Hbucket Hdec Hfind)
    as Hget.
  assert (len (mvccpb.Value kv) ≠ 0) as Hlen by (by rewrite len_zero).
  assert (records_of key kvs ≠ []) as Hrec.
  { apply list_find_Some in Hfind as (Hi & [Hk _] & _). intros Hnil.
    assert (kv ∈ records_of key kvs) as Hin.
    { apply list_elem_of_filter. split; [done|]. by eapply list_elem_of_lookup_2. }
    rewrite Hnil in Hin. by apply elem_of_nil in Hin. }
  unfold printValue.
  destruct Hres as [[-> ->]|[Hne Hparse]].
  - rewrite !decide_True by done.
    rewrite listVersions_cases, Hopen, Hbucket, Hdec. rewrite bind_Done.
    rewrite decide_False by (rewrite length_fmap; by destruct (records_of _ _)).
    unfold ret. simpl. rewrite Hget. simpl. rewrite decide_False by done.
    destruct raw; [done|]. by destruct (convert _ _ _) as [w [tm|err]].
  - rewrite !decide_False by done. rewrite Hparse. unfold ret. rewrite bind_Done. simpl.
    rewrite Hget. simpl. rewrite decide_False by done.
    destruct raw; [done|]. by destruct (convert _ _ _) as [w [tm|err]].
Qed.

Lemma printValue_prints_first_match_witness :
  printValue (Sample.env [("1", "a2"); ("2", "a3"); ("3", "a1")]) "db" "/a" "" true
    "application/json"
  = (walked "db" ++ walked "db" ++ [WriteOut ("xyz" +:+ nl)], Done tt) ∧
  printValue (Sample.env [("1", "a2"); ("2", "m2"); ("3", "m1")]) "db"
    "/registry/configmaps/default/a" "1" false "application/json"
  = ([] ++ walked "db" ++ [WriteOut (Sample.configMap "1" +:+ nl)], Done tt).
Proof.
  split.
  - apply (printValue_prints_first_match
             (Sample.env [("1", "a2"); ("2", "a3"); ("3", "a1")]) "db" "/a" "" true
             "application/json" (Sample.db [("1", "a2"); ("2", "a3"); ("3", "a1")])
             [("1", "a2"); ("2", "a3"); ("3", "a1")]
             [Sample.kv "/a" 2 "xy"; Sample.kv "/a" 3 "xyz"; Sample.kv "/a" 1 "x"]
             3 1%nat (Sample.kv "/a" 3 "xyz")); try reflexivity.
    + left. split; reflexivity.
    + discriminate.
  - apply (printValue_prints_first_match
             (Sample.env [("1", "a2"); ("2", "m2"); ("3", "m1")]) "db"
             "/registry/configmaps/default/a" "1" false
             "application/json" (Sample.db [("1", "a2"); ("2", "m2"); ("3", "m1")])
             [("1", "a2"); ("2", "m2"); ("3", "m1")]
             [Sample.kv "/a" 2 "xy";
              Sample.kv "/registry/configmaps/default/a" 2 (Sample.configMap "22");
              Sample.kv "/registry/configmaps/default/a" 1 (Sample.configMap "1")]
             1 2%nat (Sample.kv "/registry/configmaps/default/a" 1 (Sample.configMap "1")));
      try reflexivity.
    + right. split; [discriminate|reflexivity].
    + discriminate.
Defined.

Lemma printKeySummaries_writes (E : Env) filename keyPrefix fields t l :
  fields ≠ [] →
  Forall (λ field, field ∈ SummaryFields) fields →
  listKeySummaries E filename keyPrefix = (t, Done l) →
  printKeySummaries E filename keyPrefix fields =
    (t ++ writes (λ s, summary_line E fields s +:+ nl) l, Done tt).
Proof.
  intros Hne Hfields Hl. unfold printKeySummaries.
  rewrite decide_False by (by destruct fields).
  by rewrite Hl, bind_Done, (printKeySummaries_loop_writes E fields l Hfields).
Qed.

(** X17. [printKeySummaries] with recognized field names only: it cannot fail on
    a field, and writes exactly one line per summary returned by
    [listKeySummaries], in that (ascending key) order, after the walk. *)
Theorem printKeySummaries_lines (E : Env) filename keyPrefix fields t l :
  fields ≠ [] →
  Forall (λ field, field ∈ SummaryFields) fields →
  listKeySummaries E filename keyPrefix = (t, Done l) →
  printKeySummaries E filename keyPrefix fields =
    (t ++ writes (λ s, summary_line E fields s +:+ nl) l, Done tt).
Proof. apply printKeySummaries_writes. Qed.

Lemma printKeySummaries_lines_witness :
  printKeySummaries (Sample.env [("1", "b1"); ("2", "a1"); ("3", "a2")]) "db" ""
    ["key"; "value-size"; "all-versions-value-size"]
  = ([OpenFile "db"; CloseFile "db"; WriteOut ("/a 2 3" +:+ nl); WriteOut ("/b 1 1" +:+ nl)],
     Done tt).
Proof.
  apply (printKeySummaries_lines
           (Sample.env [("1", "b1"); ("2", "a1"); ("3", "a2")]) "db" ""
           ["key"; "value-size"; "all-versions-value-size"]
           [OpenFile "db"; CloseFile "db"]
           (getSortedKeySummaries
              (aggregate (Sample.env []) ""
                 [Sample.kv "/b" 1 "q"; Sample.kv "/a" 1 "x"; Sample.kv "/a" 2 "xy"]))).
  - discriminate.
  - repeat constructor.
  - vm_compute. reflexivity.
Defined.

(** X18. [extractValidateAndRun], the default case (lines 175-177): with only
    --file and --keys-by-prefix given, the program writes the key of each
    summary of [listKeySummaries], one per line, and returns nil. *)
Theorem default_run_lists_keys (E : Env) (opts : extractOptions) outMediaType t l :
  encoding_ToMediaType E (out opts) = Ok outMediaType →
  leafItem opts = false →
  key opts = "" → version opts = "" → listVersions_ opts = false →
  template opts = "" → fields opts = Key →
  listKeySummaries E (filename opts) (keyPrefix opts) = (t, Done l) →
  extractValidateAndRun E opts = (t ++ writes (λ s, KeySummary.Key s +:+ nl) l, Done tt).
Proof.
  intros Hout Hleaf Hkey Hver Hlist Htpl Hfields Hl.
  unfold extractValidateAndRun.
  rewrite Hout, Hleaf, Hlist, Hfields.
  rewrite (negb_bool_decide_false Hkey), (negb_bool_decide_false Hver),
    (negb_bool_decide_false Htpl). simpl.
  rewrite (printKeySummaries_writes E _ _ ["key"] t l); [done|done| |done].
  repeat constructor.
Qed.

Lemma default_run_lists_keys_witness :
  extractValidateAndRun (Sample.env [("1", "b1"); ("2", "c7"); ("3", "a1")]) Cases.optsPrefix
  = ([OpenFile "db"; CloseFile "db"; WriteOut ("/a" +:+ nl); WriteOut ("/a/c" +:+ nl)], Done tt).
Proof.
  apply (default_run_lists_keys
           (Sample.env [("1", "b1"); ("2", "c7"); ("3", "a1")]) Cases.optsPrefix
           "application/yaml" [OpenFile "db"; CloseFile "db"]
           (getSortedKeySummaries
              (aggregate (Sample.env []) "/a"
                 [Sample.kv "/b" 1 "q"; Sample.kv "/a/c" 7 ""; Sample.kv "/a" 1 "x"])));
    reflexivity.
Defined.

(** X19. [templateSummaries], lines 273-280: the template is checked before the
    store is touched: a parse error is returned as it is, and an empty
    template that parses is refused with "no template provided, nothing to
    output."; in both cases no event has happened. *)
Theorem templateSummaries_checks_template_first (E : Env) filename keyPrefix templatestr :
  (∀ err, template_Parse E templatestr = Err err →
     templateSummaries E filename keyPrefix templatestr = ([], Failed err)) ∧
  (template_Parse E templatestr = Ok tt → templatestr = "" →
     templateSummaries E filename keyPrefix templatestr =
       ([], Failed (Errorf "no template provided, nothing to output."))).
Proof.
  unfold templateSummaries. split.
  - by intros err ->.
  - by intros -> ->.
Qed.

Lemma templateSummaries_checks_template_first_witness :
  templateSummaries (Cases.template_env [("1", "a1")]) "db" "" "{{"
    = ([], Failed (LibError "template" "unclosed action")) ∧
  templateSummaries (Cases.template_env [("1", "a1")]) "db" "" ""
    = ([], Failed (Errorf "no template provided, nothing to output.")).
Proof.
  split.
  - apply (proj1 (templateSummaries_checks_template_first
                    (Cases.template_env [("1", "a1")]) "db" "" "{{")). reflexivity.
  - apply (proj2 (templateSummaries_checks_template_first
                    (Cases.template_env [("1", "a1")]) "db" "" "")); reflexivity.
Defined.

(** X20. [templateSummaries], lines 286-293: when the template renders every
    summary, what is written is, for each summary in order, the rendering
    followed by a newline. *)
Theorem templateSummaries_renders_each (E : Env) filename keyPrefix templatestr t l :
  template_Parse E templatestr = Ok tt →
  templatestr ≠ "" →
  listKeySummaries E filename keyPrefix = (t, Done l) →
  Forall (λ s, (template_Execute E templatestr s).2 = Ok tt) l →
  templateSummaries E filename keyPrefix templatestr =
    (t ++ rendered E templatestr l, Done tt).
Proof.
  intros Hparse Hne Hl Hok. unfold templateSummaries. rewrite Hparse.
  rewrite decide_False by (by rewrite len_zero).
  by rewrite Hl, bind_Done, (templateSummaries_loop_renders E templatestr l Hok).
Qed.

Lemma templateSummaries_renders_each_witness :
  templateSummaries (Cases.template_env [("1", "c7"); ("2", "a1")]) "db" "" "{{.Key}}"
  = ([OpenFile "db"; CloseFile "db"; WriteOut "/a"; WriteOut nl; WriteOut "/a/c"; WriteOut nl],
     Done tt).
Proof.
  apply (templateSummaries_renders_each
           (Cases.template_env [("1", "c7"); ("2", "a1")]) "db" "" "{{.Key}}"
           [OpenFile "db"; CloseFile "db"]
           (getSortedKeySummaries
              (aggregate (Sample.env []) "" [Sample.kv "/a/c" 7 ""; Sample.kv "/a" 1 "x"]))).
  - reflexivity.
  - discriminate.
  - vm_compute. reflexivity.
  - repeat constructor.
Defined.

(** X21. [templateSummaries], lines 287-290: when the rendering of a summary
    fails, the summaries before it have been written in full, the bytes the
    failed rendering produced have been written without a newline, no later
    summary is rendered, and the error of the rendering is returned. *)
Theorem templateSummaries_breaks_off (E : Env)
    filename keyPrefix templatestr t good s rest w err :
  template_Parse E templatestr = Ok tt →
  templatestr ≠ "" →
  listKeySummaries E filename keyPrefix = (t, Done (good ++ s :: rest)) →
  Forall (λ s, (template_Execute E templatestr s).2 = Ok tt) good →
  template_Execute E templatestr s = (w, Err err) →
  templateSummaries E filename keyPrefix templatestr =
    (t ++ rendered E templatestr good ++ [WriteOut w], Failed err).
Proof.
  intros Hparse Hne Hl Hgood Hs. unfold templateSummaries. rewrite Hparse.
  rewrite decide_False by (by rewrite len_zero).
  by rewrite Hl, bind_Done,
    (templateSummaries_loop_breaks E templatestr good s rest w err Hgood Hs).
Qed.

Lemma templateSummaries_breaks_off_witness :
  templateSummaries (Cases.template_env [("1", "b1"); ("2", "a1")]) "db" "" "{{.Key}}"
  = ([OpenFile "db"; CloseFile "db"; WriteOut "/a"; WriteOut nl; WriteOut "par"],
     Failed (LibError "template" "nil pointer evaluating")).
Proof.
  apply (templateSummaries_breaks_off
           (Cases.template_env [("1", "b1"); ("2", "a1")]) "db" "" "{{.Key}}"
           [OpenFile "db"; CloseFile "db"]
           [newKeySummary (Sample.env []) (Sample.kv "/a" 1 "x")]
           (newKeySummary (Sample.env []) (Sample.kv "/b" 1 "q")) []
           "par" (LibError "template" "nil pointer evaluating")).
  - reflexivity.
  - discriminate.
  - vm_compute. reflexivity.
  - repeat constructor.
  - reflexivity.
Defined.

(** ** The leaf-item mode *)

(** X22. [extractValidateAndRun], lines 145-160: with --leaf-item and a valid
    --output the program reads its input once and never opens a bolt file,
    whatever the other options are and however the run ends. *)
Theorem leaf_item_never_opens_store (E : Env) (opts : extractOptions) outMediaType :
  encoding_ToMediaType E (out opts) = Ok outMediaType →
  leafItem opts = true →
  file_io (extractValidateAndRun E opts).1 = [ReadInput (filename opts)].
Proof.
  intros Hout Hleaf. unfold extractValidateAndRun. rewrite Hout, Hleaf.
  destruct (readInput E (filename opts)) as [raw|err]; [|done].
  rewrite bind_Done. unfold extractKvFromLeafItem.
  destruct (Unmarshal E raw) as [kv|err]; [|done].
  destruct (metaSummary opts); [done|].
  destruct (printKey opts); [done|].
  unfold printLeafItemValue. by destruct (convert _ _ _) as [w [tm|err]].
Qed.

Lemma leaf_item_never_opens_store_witness :
  file_io (extractValidateAndRun Cases.leaf_env (Cases.optsLeaf "item" false false)).1
    = [ReadInput "item"].
Proof.
  apply (leaf_item_never_opens_store Cases.leaf_env (Cases.optsLeaf "item" false false)
           "application/json"); reflexivity.
Defined.

(** X23. [extractValidateAndRun], lines 146-153: in leaf-item mode an input that
    cannot be read gives "unable to read input: <cause>", and an input that
    does not decode gives "failed to extract etcd key-value record from
    boltdb leaf item: <cause>"; nothing is written in either case. *)
Theorem leaf_item_errors (E : Env) (opts : extractOptions) outMediaType :
  encoding_ToMediaType E (out opts) = Ok outMediaType →
  leafItem opts = true →
  (∀ err, readInput E (filename opts) = Err err →
     extractValidateAndRun E opts =
       ([ReadInput (filename opts)],
        Failed (Errorf ("unable to read input: " +:+ Error err)))) ∧
  (∀ raw err, readInput E (filename opts) = Ok raw → Unmarshal E raw = Err err →
     extractValidateAndRun E opts =
       ([ReadInput (filename opts)],
        Failed (Errorf ("failed to extract etcd key-value record from boltdb leaf item: "
                        +:+ Error err)))).
Proof.
  intros Hout Hleaf. unfold extractValidateAndRun. rewrite Hout, Hleaf. split.
  - by intros err ->.
  - intros raw err -> Hraw. rewrite bind_Done. unfold extractKvFromLeafItem.
    by rewrite Hraw.
Qed.

Lemma leaf_item_errors_witness :
  extractValidateAndRun Cases.leaf_env (Cases.optsLeaf "absent" true true) =
    ([ReadInput "absent"],
     Failed (Errorf "unable to read input: no such file or directory")) ∧
  extractValidateAndRun Cases.leaf_env (Cases.optsLeaf "torn" true true) =
    ([ReadInput "torn"],
     Failed (Errorf
       "failed to extract etcd key-value record from boltdb leaf item: unexpected EOF")).
Proof.
  split.
  - apply (proj1 (leaf_item_errors Cases.leaf_env (Cases.optsLeaf "absent" true true)
                    "application/json" eq_refl eq_refl)
             (LibError "os" "no such file or directory")). reflexivity.
  - apply (proj2 (leaf_item_errors Cases.leaf_env (Cases.optsLeaf "torn" true true)
                    "application/json" eq_refl eq_refl)
             "garbage" (LibError "proto" "unexpected EOF")); reflexivity.
Defined.

(** X24. [extractValidateAndRun], lines 154-160, with [printLeafItemSummary] and
    [printLeafItemKey]: for a leaf item that decodes, --meta-summary writes
    the five lines Key, Version, CreateRevision, ModRevision and Lease, also
    when --print-key is set; --print-key alone writes the key and a
    newline. *)
Theorem leaf_item_prints (E : Env) (opts : extractOptions) outMediaType raw kv :
  encoding_ToMediaType E (out opts) = Ok outMediaType →
  leafItem opts = true →
  readInput E (filename opts) = Ok raw →
  Unmarshal E raw = Ok kv →
  (metaSummary opts = true →
     extractValidateAndRun E opts =
       ([ReadInput (filename opts);
         WriteOut ("Key: " +:+ mvccpb.Key kv +:+ nl);
         WriteOut ("Version: " +:+ pretty (mvccpb.Version kv) +:+ nl);
         WriteOut ("CreateRevision: " +:+ pretty (mvccpb.CreateRevision kv) +:+ nl);
         WriteOut ("ModRevision: " +:+ pretty (mvccpb.ModRevision kv) +:+ nl);
         WriteOut ("Lease: " +:+ pretty (mvccpb.Lease kv) +:+ nl)], Done tt)) ∧
  (metaSummary opts = false → printKey opts = true →
     extractValidateAndRun E opts =
       ([ReadInput (filename opts); WriteOut (mvccpb.Key kv +:+ nl)], Done tt)).
Proof.
  intros Hout Hleaf Hin Hkv. unfold extractValidateAndRun.
  rewrite Hout, Hleaf, Hin, bind_Done. unfold extractKvFromLeafItem. rewrite Hkv.
  split.
  - by intros ->.
  - by intros -> ->.
Qed.

Lemma leaf_item_prints_witness :
  extractValidateAndRun Cases.leaf_env (Cases.optsLeaf "item" true true) =
    ([ReadInput "item";
      WriteOut ("Key: /a" +:+ nl); WriteOut ("Version: 2" +:+ nl);
      WriteOut ("CreateRevision: 0" +:+ nl); WriteOut ("ModRevision: 0" +:+ nl);
      WriteOut ("Lease: 0" +:+ nl)], Done tt) ∧
  extractValidateAndRun Cases.leaf_env (Cases.optsLeaf "item" false true) =
    ([ReadInput "item"; WriteOut ("/a" +:+ nl)], Done tt).
Proof.
  split.
  - apply (proj1 (leaf_item_prints Cases.leaf_env (Cases.optsLeaf "item" true true)
                    "application/json" "a2" (Sample.kv "/a" 2 "xy")
                    eq_refl eq_refl eq_refl eq_refl)). reflexivity.
  - apply (proj2 (leaf_item_prints Cases.leaf_env (Cases.optsLeaf "item" false true)
                    "application/json" "a2" (Sample.kv "/a" 2 "xy")
                    eq_refl eq_refl eq_refl eq_refl)); reflexivity.
Defined.

(** ** Options that exclude or need each other *)

(** X25. [extractValidateAndRun], lines 161-170: outside leaf-item mode and with
    a valid --output, --key together with --keys-by-prefix is refused, and so
    are --list-versions and --version without --key; each time with its own
    message, before any I/O, and whatever --fields and --template are. *)
Theorem selector_conflicts (E : Env) (opts : extractOptions) outMediaType :
  encoding_ToMediaType E (out opts) = Ok outMediaType →
  leafItem opts = false →
  (key opts ≠ "" → keyPrefix opts ≠ "" →
     extractValidateAndRun E opts =
       ([], Failed (Errorf "--keys-by-prefix and --key may not be used together"))) ∧
  (key opts = "" → listVersions_ opts = true →
     extractValidateAndRun E opts =
       ([], Failed (Errorf "--list-versions may only be used with --key"))) ∧
  (key opts = "" → listVersions_ opts = false → version opts ≠ "" →
     extractValidateAndRun E opts =
       ([], Failed (Errorf "--version may only be used with --key"))).
Proof.
  intros Hout Hleaf. unfold extractValidateAndRun. rewrite Hout, Hleaf. split_and!.
  - intros Hk Hp. by rewrite (negb_bool_decide_true Hk), (negb_bool_decide_true Hp).
  - intros Hk ->. by rewrite (negb_bool_decide_false Hk).
  - intros Hk -> Hv. by rewrite (negb_bool_decide_false Hk), (negb_bool_decide_true Hv).
Qed.

Lemma selector_conflicts_witness :
  extractValidateAndRun (Sample.env [("1", "a1")]) Cases.optsKeyAndPrefix =
    ([], Failed (Errorf "--keys-by-prefix and --key may not be used together")) ∧
  extractValidateAndRun (Sample.env [("1", "a1")]) Sample.optsListVersionsVersion =
    ([], Failed (Errorf "--list-versions may only be used with --key")) ∧
  extractValidateAndRun (Sample.env [("1", "a1")]) Cases.optsVersionOnly =
    ([], Failed (Errorf "--version may only be used with --key")).
Proof.
  split_and!.
  - apply (selector_conflicts (Sample.env [("1", "a1")]) Cases.optsKeyAndPrefix
             "application/yaml" eq_refl eq_refl); discriminate.
  - apply (selector_conflicts (Sample.env [("1", "a1")]) Sample.optsListVersionsVersion
             "application/json" eq_refl eq_refl); reflexivity.
  - apply (selector_conflicts (Sample.env [("1", "a1")]) Cases.optsVersionOnly
             "application/yaml" eq_refl eq_refl); [reflexivity|reflexivity|discriminate].
Defined.

(** ** A file that cannot be opened *)

Section Unopened.
Variable E : Env.
Variable filename : string.
Variable cause : error.
Hypothesis Hopen : bolt_Open E filename = Err cause.

Lemma listVersions_unopened key :
  listVersions E filename key = ([OpenFile filename], Failed cause).
Proof. by rewrite listVersions_cases, Hopen. Qed.

Lemma listKeySummaries_unopened prefix :
  listKeySummaries E filename prefix = ([OpenFile filename], Failed cause).
Proof. by rewrite listKeySummaries_cases, Hopen. Qed.

Lemma getValue_unopened key version :
  getValue E filename key version = ([OpenFile filename], Failed cause).
Proof. unfold getValue, walk. by rewrite Hopen. Qed.

Lemma printValue_unopened key version raw outMediaType :
  ∃ t err, printValue E filename key version raw outMediaType = (t, Failed err) ∧
           output t = "".
Proof.
  unfold printValue. destruct (decide (version = "")).
  - rewrite listVersions_unopened. by eexists _, _.
  - destruct (strconv_ParseInt E version) as [v|err]; [|by eexists _, _].
    unfold ret. rewrite bind_Done. simpl. rewrite getValue_unopened. by eexists _, _.
Qed.

Lemma printKeySummaries_unopened keyPrefix fields :
  ∃ t err, printKeySummaries E filename keyPrefix fields = (t, Failed err) ∧ output t = "".
Proof.
  unfold printKeySummaries. destruct (decide _); [by eexists _, _|].
  rewrite listKeySummaries_unopened. by eexists _, _.
Qed.

Lemma templateSummaries_unopened keyPrefix templatestr :
  ∃ t err, templateSummaries E filename keyPrefix templatestr = (t, Failed err) ∧
           output t = "".
Proof.
  unfold templateSummaries. destruct (template_Parse E templatestr); [|by eexists _, _].
  destruct (decide _); [by eexists _, _|].
  rewrite listKeySummaries_unopened. by eexists _, _.
Qed.
End Unopened.

(** X26. [extractValidateAndRun] outside leaf-item mode, on a file that
    [bolt.Open] refuses (locked, unreadable, not a bolt file): whatever the
    options, the run ends with an error and nothing has been written. *)
Theorem unopenable_file_writes_nothing (E : Env) (opts : extractOptions) cause :
  leafItem opts = false →
  bolt_Open E (filename opts) = Err cause →
  ∃ t err, extractValidateAndRun E opts = (t, Failed err) ∧ output t = "".
Proof.
  intros Hleaf Hopen. unfold extractValidateAndRun. rewrite Hleaf.
  destruct (encoding_ToMediaType E (out opts)) as [mt|err]; [|by eexists _, _].
  destruct (negb (bool_decide (key opts = ""))); simpl.
  - destruct (negb (bool_decide (keyPrefix opts = ""))); simpl; [by eexists _, _|].
    destruct (listVersions_ opts).
    + unfold printVersions. rewrite (listVersions_unopened E _ cause Hopen).
      by eexists _, _.
    + by apply (printValue_unopened E _ cause).
  - destruct (listVersions_ opts); [by eexists _, _|].
    destruct (negb (bool_decide (version opts = ""))); simpl; [by eexists _, _|].
    destruct (negb (bool_decide (template opts = ""))); simpl.
    + destruct (negb (bool_decide (fields opts = Key))); [by eexists _, _|].
      by apply (templateSummaries_unopened E _ cause).
    + by apply (printKeySummaries_unopened E _ cause).
Qed.

Lemma unopenable_file_writes_nothing_witness :
  ∃ t err, extractValidateAndRun (Sample.env [("1", "a1")]) Cases.optsNotADatabase
             = (t, Failed err) ∧ output t = "".
Proof.
  apply (unopenable_file_writes_nothing (Sample.env [("1", "a1")]) Cases.optsNotADatabase
           (LibError "bolt" "invalid database")); reflexivity.
Defined.

(** ** An item that does not decode, and versions that are listed *)

(** X27. [listKeySummaries] and [printKeySummaries], lines 256-259 and 382-384:
    one item of the bucket that does not decode makes the listing fail with
    the decoder's error, for every prefix, and nothing is printed, not even
    the keys met before that item. *)
Theorem undecodable_item_fails_listing (E : Env)
    filename keyPrefix fields db pre kvs k v post err :
  bolt_Open E filename = Ok db →
  bolt.Bucket db keyBucket = Some (pre ++ (k, v) :: post) →
  decode_items E pre = Ok kvs →
  Unmarshal E v = Err err →
  fields ≠ [] →
  listKeySummaries E filename keyPrefix = (walked filename, Failed err) ∧
  printKeySummaries E filename keyPrefix fields = (walked filename, Failed err).
Proof.
  intros Hopen Hbucket Hpre Hv Hfields.
  assert (listKeySummaries E filename keyPrefix = (walked filename, Failed err)) as Hl.
  { rewrite listKeySummaries_cases, Hopen, Hbucket.
    rewrite decode_items_app, Hpre. simpl. by rewrite Hv. }
  split; [done|]. unfold printKeySummaries.
  rewrite decide_False by (by destruct fields). by rewrite Hl.
Qed.

Lemma undecodable_item_fails_listing_witness :
  listKeySummaries (Sample.env [("1", "a1"); ("2", "garbage"); ("3", "b1")]) "db" "/b"
    = (walked "db", Failed (LibError "proto" "unexpected EOF")) ∧
  printKeySummaries (Sample.env [("1", "a1"); ("2", "garbage"); ("3", "b1")]) "db" "/b" ["key"]
    = (walked "db", Failed (LibError "proto" "unexpected EOF")).
Proof.
  apply (undecodable_item_fails_listing
           (Sample.env [("1", "a1"); ("2", "garbage"); ("3", "b1")]) "db" "/b" ["key"]
           (Sample.db [("1", "a1"); ("2", "garbage"); ("3", "b1")])
           [("1", "a1")] [Sample.kv "/a" 1 "x"] "2" "garbage" [("3", "b1")]
           (LibError "proto" "unexpected EOF")); try reflexivity.
  discriminate.
Defined.

(** X28. [listVersions] and [getValue] together: over a store that opens and
    decodes, every version that [listVersions] returns for a key can be
    fetched: [getValue] for the key and that version returns the value of a
    record of the store with that key and version. *)
Theorem listed_version_has_value (E : Env) filename key db items kvs versions v :
  bolt_Open E filename = Ok db →
  bolt.Bucket db keyBucket = Some items →
  decode_items E items = Ok kvs →
  listVersions E filename key = (walked filename, Done versions) →
  v ∈ versions →
  ∃ kv, kv ∈ kvs ∧ matches key v kv ∧
        getValue E filename key v = (walked filename, Done (mvccpb.Value kv)).
Proof.
  intros Hopen Hbucket Hdec Hlist Hv.
  rewrite listVersions_cases, Hopen, Hbucket, Hdec in Hlist. simplify_eq.
  apply list_elem_of_fmap in Hv as (r & -> & Hr).
  apply list_elem_of_filter in Hr as [Hk Hr].
  destruct (list_find_elem_of (matches key (mvccpb.Version r)) kvs r Hr) as [[i kv] Hfind];
    [done|].
  exists kv. pose proof Hfind as Hfound.
  apply list_find_Some in Hfound as (Hi & Hm & _).
  split; [by eapply list_elem_of_lookup_2|]. split; [done|].
  by apply (getValue_found E filename key _ db items kvs i kv).
Qed.

Lemma listed_version_has_value_witness :
  ∃ kv, kv ∈ [Sample.kv "/a" 2 "xy"; Sample.kv "/b" 1 "q"; Sample.kv "/a" 1 "x"] ∧
        matches "/a" 1 kv ∧
        getValue (Sample.env [("1", "a2"); ("2", "b1"); ("3", "a1")]) "db" "/a" 1
          = (walked "db", Done (mvccpb.Value kv)).
Proof.
  apply (listed_version_has_value
           (Sample.env [("1", "a2"); ("2", "b1"); ("3", "a1")]) "db" "/a"
           (Sample.db [("1", "a2"); ("2", "b1"); ("3", "a1")])
           [("1", "a2"); ("2", "b1"); ("3", "a1")]
           [Sample.kv "/a" 2 "xy"; Sample.kv "/b" 1 "q"; Sample.kv "/a" 1 "x"]
           [2; 1] 1); try reflexivity.
  apply elem_of_cons. right. by left.
Defined.

(** ** The decoded value against the latest version *)

(** C1, the code on any store in which a key has a first record and, later in
    the walk, a record [last] whose version is above that of every other
    record of the key: the summary has the [Version] of [last] and the value
    size of [last], while its [Value] and [TypeMeta] are those decoded from
    the first record; the else branch never assigns them.  Whenever the two
    values decode differently, the summary does not hold the decoding of the
    highest version. *)
Theorem summary_value_is_stale (E : Env) filename prefix db items kvs k first rest last :
  bolt_Open E filename = Ok db →
  bolt.Bucket db keyBucket = Some items →
  decode_items E items = Ok kvs →
  bytes_HasPrefix k prefix = true →
  records_of k kvs = first :: rest →
  last ∈ rest →
  (∀ r, r ∈ first :: rest → r ≠ last → mvccpb.Version r < mvccpb.Version last) →
  ∃ l ks,
    listKeySummaries E filename prefix = (walked filename, Done l) ∧
    ks ∈ l ∧ KeySummary.Key ks = k ∧
    KeySummary.Version ks = mvccpb.Version last ∧
    KeySummaryStats.ValueSize (KeySummary.Stats ks) = len (mvccpb.Value last) ∧
    KeySummary.Value ks = KeySummary.Value (newKeySummary E first) ∧
    KeySummary.TypeMeta ks = KeySummary.TypeMeta (newKeySummary E first).
Proof.
  intros Hopen Hbucket Hdec Hp Hrec Hlast Hhighest.
  destruct (listKeySummaries_summary_of E filename prefix db items kvs k first rest
              Hopen Hbucket Hdec Hp Hrec) as (Hl & Hin & Hk).
  assert (KeySummary.Version (fold_left updateKeySummary rest (newKeySummary E first))
          = mvccpb.Version last) as Hver.
  { apply summary_Version_max.
    - apply list_elem_of_fmap_2. by right.
    - intros e (r & -> & Hr)%list_elem_of_fmap.
      destruct (decide (r = last)) as [->|Hne]; [done|].
      specialize (Hhighest r Hr Hne). lia. }
  eexists _, _. split; [exact Hl|]. split; [exact Hin|]. split; [exact Hk|].
  split; [exact Hver|]. split; [|apply fold_update_Value].
  destruct (fold_update_latest rest (newKeySummary E first) [first]) as (r & Hr & Hrv & Hsz).
  { exists first. split; [by left|].
    by rewrite newKeySummary_Version, newKeySummary_Stats. }
  rewrite Hsz. destruct (decide (r = last)) as [->|Hne]; [done|].
  specialize (Hhighest r Hr Hne). rewrite Hver in Hrv. lia.
Qed.

Lemma summary_value_is_stale_witness :
  (∃ l ks,
     listKeySummaries (Sample.env [("1", "m1"); ("2", "b1"); ("3", "m2")]) "db" ""
       = (walked "db", Done l) ∧
     ks ∈ l ∧ KeySummary.Key ks = "/registry/configmaps/default/a" ∧
     KeySummary.Version ks = 2 ∧
     KeySummaryStats.ValueSize (KeySummary.Stats ks) = len (Sample.configMap "22") ∧
     KeySummary.Value ks = Some (Sample.configMapObject "1") ∧
     KeySummary.TypeMeta ks = Some Sample.configMapMeta) ∧
  KeySummary.Value
    (newKeySummary (Sample.env [])
       (Sample.kv "/registry/configmaps/default/a" 2 (Sample.configMap "22")))
    = Some (Sample.configMapObject "22") ∧
  Sample.configMapObject "1" ≠ Sample.configMapObject "22".
Proof.
  split; [|split; [vm_compute; reflexivity|discriminate]].
  apply (summary_value_is_stale
           (Sample.env [("1", "m1"); ("2", "b1"); ("3", "m2")]) "db" ""
           (Sample.db [("1", "m1"); ("2", "b1"); ("3", "m2")])
           [("1", "m1"); ("2", "b1"); ("3", "m2")]
           [Sample.kv "/registry/configmaps/default/a" 1 (Sample.configMap "1");
            Sample.kv "/b" 1 "q";
            Sample.kv "/registry/configmaps/default/a" 2 (Sample.configMap "22")]
           "/registry/configmaps/default/a"
           (Sample.kv "/registry/configmaps/default/a" 1 (Sample.configMap "1"))
           [Sample.kv "/registry/configmaps/default/a" 2 (Sample.configMap "22")]
           (Sample.kv "/registry/configmaps/default/a" 2 (Sample.configMap "22")));
    try reflexivity.
  - by left.
  - intros r Hr Hne. apply elem_of_cons in Hr as [->|Hr]; [simpl; lia|].
    apply list_elem_of_singleton in Hr. by subst r.
Defined.

(** Values that are not encoded objects, such as x and xy, decode to
    nothing at either version. *)
Example undecodable_values_have_no_decoding :
  outcome_map (fmap (λ ks, (KeySummary.Version ks, KeySummary.Value ks, KeySummary.TypeMeta ks)))
    (listKeySummaries (Sample.env [("1", "a1"); ("2", "a2")]) "db" "").2
  = Done [(2, None, None)].
Proof. vm_compute. reflexivity. Qed.
